(** * Ajenti core: lifecycle supervisor and core HTTP API handlers

    A shallow embedding of [ajenti-core/aj/core.py] (the tail of [run]:
    TLS context selection, [cleanup], [signal_handler], restart by
    re-exec) and of [plugins/core/views/api.py] (the [Handler] endpoints
    for authentication, session time and password reset), with the
    properties the specification states about them.

    Python values are modelled by [pyval]; exceptions by [exn]; a
    statement sequence that reads and writes process state and may raise
    is a function [S -> result A * S].  Python floats are IEEE 754
    binary64 numbers, computed with [SpecFloat]. *)

From Stdlib Require Import ZArith QArith Qpower Lqa Lia String Ascii List DecimalString.
From Stdlib Require Import SpecFloat.
From stdpp Require Import base option list strings gmap.

Local Open Scope string_scope.
Local Open Scope Z_scope.
Local Open Scope list_scope.

(** ** Python values, exceptions, and the state-and-exception monad *)

(** The scalar values that reach the modelled code from YAML configuration
    and from decoded JSON request bodies. *)
Inductive pyval :=
| PNone
| PBool (b : bool)
| PInt (z : Z)
| PStr (s : string).

(** Python truthiness ([if v:], [v or d], [a if v else b]). *)
Definition truthy (v : pyval) : bool :=
  match v with
  | PNone => false
  | PBool b => b
  | PInt z => negb (Z.eqb z 0)
  | PStr s => negb (String.eqb s "")
  end.

(** [v == 'literal'] for a string literal on the right-hand side. *)
Definition eq_str (v : pyval) (lit : string) : bool :=
  match v with
  | PStr s => String.eqb s lit
  | _ => false
  end.

(** [str(v)], as used by f-string interpolation [f"{v}"]. *)
Definition py_str (v : pyval) : string :=
  match v with
  | PNone => "None"
  | PBool true => "True"
  | PBool false => "False"
  | PInt z => NilZero.string_of_int (Z.to_int z)
  | PStr s => s
  end.

Inductive exn :=
| OSError (errno : Z)
| KeyError (key : string)
| IndexError
| SudoError (message : pyval)
| BadSignature
| BadTimeSignature
| SignatureExpired
| BadPayload
| EndpointError (inner : exn)
| OtherError (name : string).

(** [isinstance(e, OSError)]. *)
Definition is_OSError (e : exn) : bool :=
  match e with OSError _ => true | _ => false end.

Inductive result (A : Type) :=
| Ok (a : A)
| Raise (e : exn).
Arguments Ok {A} a.
Arguments Raise {A} e.

Definition M (S A : Type) : Type := S → result A * S.

Definition ret {S A} (a : A) : M S A := λ s, (Ok a, s).

Definition bind {S A B} (m : M S A) (k : A → M S B) : M S B :=
  λ s, match m s with
       | (Ok a, s') => k a s'
       | (Raise e, s') => (Raise e, s')
       end.

Definition raise {S A} (e : exn) : M S A := λ s, (Raise e, s).

(** [try: body except <classes>: handler], where [catches] decides
    whether the raised exception is an instance of the listed classes. *)
Definition try_except {S A} (body : M S A) (catches : exn → bool)
    (handler : exn → M S A) : M S A :=
  λ s, match body s with
       | (Ok a, s') => (Ok a, s')
       | (Raise e, s') => if catches e then handler e s' else (Raise e, s')
       end.

Declare Scope py_scope.
Delimit Scope py_scope with py.
Notation "x <- c1 ;;; c2" := (bind c1 (λ x, c2))
  (at level 100, c1 at next level, right associativity) : py_scope.
Notation "c1 ;;; c2" := (bind c1 (λ _, c2))
  (at level 100, right associativity) : py_scope.
Local Open Scope py_scope.

Definition when {S} (c : bool) (body : M S unit) : M S unit :=
  if c then body else ret tt.

(** [for x in xs: body x]. *)
Fixpoint for_each {S A} (xs : list A) (body : A → M S unit) : M S unit :=
  match xs with
  | [] => ret tt
  | x :: xs' => body x ;;; for_each xs' body
  end.

(** ** [aj/core.py] *)
Module Core.

Inductive signal := SIGINT | SIGTERM | SIGKILL.

Inductive level := DEBUG | INFO | WARNING | ERROR.

(** What is installed for a signal with [gevent.signal_handler]. *)
Inductive handler :=
| HDefault
| HNoop            (* lambda: None *)
| HSignalHandler.  (* signal_handler *)

(** The operating system and the collaborators of [run] that live outside
    this file, as seen from the master process.  Each call returns the new
    OS state and the exception it raised, if any. *)
Class Platform (OS : Type) := {
  os_killpg : OS → Z → signal → OS * option exn;
  os_close : OS → nat → OS * option exn;
  (* psutil.Process(pid).children(recursive=True), as pids *)
  ps_children : OS → Z → list Z;
  (* GateMiddleware.destroy *)
  gateway_destroy : OS → OS * option exn;
}.

(** Observable actions, in program order.  A system call is recorded with
    its outcome: [None] when it returned, [Some e] when it raised [e]. *)
Inductive event :=
| Log (lvl : level) (fmt : string) (args : list pyval)
| GatewayDestroy (outcome : option exn)
| Killpg (pgid : Z) (sig : signal) (outcome : option exn)
| Close (fd : nat) (outcome : option exn)
| GeventWait
| Execv (path : string) (argv : list string).

Section Run.
Context {OS : Type} `{Platform OS}.

(** The part of the interpreter state that the tail of [run] reads and
    writes. *)
Record proc := Proc {
  cleanup_started : bool;    (* hasattr(cleanup, 'started') *)
  aj_master : bool;          (* aj.master *)
  restart_marker : bool;     (* hasattr(aj.server, 'restart_marker') *)
  sys_argv : list string;    (* sys.argv *)
  getpid : Z;                (* os.getpid() *)
  on_sigint : handler;
  on_sigterm : handler;
  os_state : OS;
  trace : list event;
}.

Definition emit (e : event) : M proc unit :=
  λ s, (Ok tt, Proc (cleanup_started s) (aj_master s) (restart_marker s)
                    (sys_argv s) (getpid s) (on_sigint s) (on_sigterm s)
                    (os_state s) (trace s ++ [e])).

Definition set_os (o : OS) : M proc unit :=
  λ s, (Ok tt, Proc (cleanup_started s) (aj_master s) (restart_marker s)
                    (sys_argv s) (getpid s) (on_sigint s) (on_sigterm s)
                    o (trace s)).

Definition set_started : M proc unit :=
  λ s, (Ok tt, Proc true (aj_master s) (restart_marker s)
                    (sys_argv s) (getpid s) (on_sigint s) (on_sigterm s)
                    (os_state s) (trace s)).

Definition set_argv (argv : list string) : M proc unit :=
  λ s, (Ok tt, Proc (cleanup_started s) (aj_master s) (restart_marker s)
                    argv (getpid s) (on_sigint s) (on_sigterm s)
                    (os_state s) (trace s)).

(** [gevent.signal_handler(sig, h)]. *)
Definition gevent_signal_handler (sig : signal) (h : handler) : M proc unit :=
  λ s, (Ok tt,
        match sig with
        | SIGINT => Proc (cleanup_started s) (aj_master s) (restart_marker s)
                      (sys_argv s) (getpid s) h (on_sigterm s)
                      (os_state s) (trace s)
        | SIGTERM => Proc (cleanup_started s) (aj_master s) (restart_marker s)
                      (sys_argv s) (getpid s) (on_sigint s) h
                      (os_state s) (trace s)
        | SIGKILL => s
        end).

Definition get {A} (f : proc → A) : M proc A := λ s, (Ok (f s), s).

(** Run a system call against the OS state, record it, and raise what it
    raised. *)
Definition syscall (call : OS → OS * option exn)
    (record : option exn → event) : M proc unit :=
  o <- get os_state ;;;
  let '(o', r) := call o in
  set_os o' ;;;
  emit (record r) ;;;
  match r with
  | None => ret tt
  | Some e => raise e
  end.

Definition killpg (pgid : Z) (sig : signal) : M proc unit :=
  syscall (λ o, os_killpg o pgid sig) (Killpg pgid sig).

Definition close (fd : nat) : M proc unit :=
  syscall (λ o, os_close o fd) (Close fd).

(** Lines 209-213: the body of the loop over the children. *)
Definition signal_child (c : Z) : M proc unit :=
  try_except
    (killpg c SIGTERM ;;;
     killpg c SIGKILL)
    is_OSError
    (λ _, ret tt).

(** Lines 207-213. *)
Definition kill_children : M proc unit :=
  o <- get os_state ;;;
  pid <- get getpid ;;;
  for_each (ps_children o pid) signal_child.

(** Lines 197-213. *)
Definition cleanup : M proc unit :=
  started <- get cleanup_started ;;;
  if started then ret tt
  else
    set_started ;;;
    pid <- get getpid ;;;
    emit (Log INFO "Process %s exiting normally" [PInt pid]) ;;;
    gevent_signal_handler SIGINT HNoop ;;;
    gevent_signal_handler SIGTERM HNoop ;;;
    master <- get aj_master ;;;
    when master (syscall gateway_destroy GatewayDestroy) ;;;
    kill_children.

(** [s] after system calls that left the OS in state [o] and appended
    [evs] to the trace. *)
Definition advance (s : proc) (o : OS) (evs : list event) : proc :=
  Proc (cleanup_started s) (aj_master s) (restart_marker s)
       (sys_argv s) (getpid s) (on_sigint s) (on_sigterm s)
       o (trace s ++ evs).

(** [s] once [cleanup] has passed its guard, set the flag, logged and
    re-armed both signals (lines 200-203). *)
Definition entered (s : proc) : proc :=
  Proc true (aj_master s) (restart_marker s) (sys_argv s) (getpid s)
       HNoop HNoop (os_state s)
       (trace s ++ [Log INFO "Process %s exiting normally" [PInt (getpid s)]]).

(** Lines 215-217.  [sys.exit(0)] raises [SystemExit]. *)
Definition signal_handler : M proc unit :=
  cleanup ;;;
  raise (OtherError "SystemExit").

(** Lines 232-239: [while fd > 2: ...; fd -= 1]. *)
Fixpoint close_descriptors (fd : nat) : M proc unit :=
  match fd with
  | O => ret tt
  | S fd' =>
      if (2 <? fd)%nat then
        try_except
          (close fd ;;;
           emit (Log DEBUG "Closed descriptor #%i" [PInt (Z.of_nat fd)]))
          is_OSError
          (λ _, ret tt) ;;;
        close_descriptors fd'
      else ret tt
  end.

(** [x in l] for a list of strings. *)
Definition py_in (x : string) (l : list string) : bool :=
  existsb (String.eqb x) l.

(** [l.remove(x)]: drops the first element equal to [x]. *)
Fixpoint list_remove (x : string) (l : list string) : list string :=
  match l with
  | [] => []
  | y :: l' => if String.eqb y x then l' else y :: list_remove x l'
  end.

(** How the tail of [run] ends: it returns to its caller, or the process
    image has been replaced by [os.execv]. *)
Inductive ending :=
| Returns
| Replaced (path : string) (argv : list string).

(** Lines 241-244. *)
Definition reexec : M proc ending :=
  emit (Log WARNING "Will restart the process now" []) ;;;
  argv <- get sys_argv ;;;
  when (py_in "-d" argv) (set_argv (list_remove "-d" argv)) ;;;
  argv <- get sys_argv ;;;
  match argv with
  | [] => raise IndexError
  | path :: _ => emit (Execv path argv) ;;; ret (Replaced path argv)
  end.

(** Lines 229-244: the restart-by-request branch. *)
Definition restart_by_request : M proc ending :=
  emit (Log WARNING "Restarting by request" []) ;;;
  cleanup ;;;
  close_descriptors 20 ;;;
  reexec.

(** Lines 224-248: what [run] does once [aj.server.serve_forever()] has
    returned. *)
Definition run_after_serve_forever : M proc ending :=
  master <- get aj_master ;;;
  when (negb master) (emit GeventWait) ;;;
  marker <- get restart_marker ;;;
  if marker then restart_by_request
  else
    master <- get aj_master ;;;
    when master (emit (Log DEBUG "Server stopped" []) ;;; cleanup) ;;;
    ret Returns.

End Run.

Arguments proc : clear implicits.

(** What the loop of [cleanup] does for one child [c]: the terminate call
    raised an [OSError], which is swallowed and ends the work on [c]; or it
    returned and the kill call followed, with whatever outcome. *)
Inductive child_block (c : Z) : list event → Prop :=
| block_refused e :
    is_OSError e = true → child_block c [Killpg c SIGTERM (Some e)]
| block_signalled r :
    child_block c [Killpg c SIGTERM None; Killpg c SIGKILL r].

(** The descriptors on which [os.close] was called, in call order. *)
Definition closed_fds (tr : list event) : list nat :=
  omap (λ e, match e with Close fd _ => Some fd | _ => None end) tr.

(** [sys.argv] as [reexec] leaves it. *)
Definition restart_argv (argv : list string) : list string :=
  if py_in "-d" argv then list_remove "-d" argv else argv.

(** The first statement of the body of [cleanup] is its log line. *)
Definition is_body_entry (e : event) : bool :=
  match e with
  | Log INFO fmt _ => String.eqb fmt "Process %s exiting normally"
  | _ => false
  end.

Definition is_gateway_destroy (e : event) : bool :=
  match e with GatewayDestroy _ => true | _ => false end.

Definition is_killpg (e : event) : bool :=
  match e with Killpg _ _ _ => true | _ => false end.

Definition count (f : event → bool) (tr : list event) : nat :=
  length (List.filter f tr).

Definition is_execv (e : event) : bool :=
  match e with Execv _ _ => true | _ => false end.

(** Events of the kinds [cleanup] produces: log lines, the gateway's
    destroy hook and signals. *)
Definition is_cleanup_event (e : event) : bool :=
  match e with
  | Log _ _ _ | GatewayDestroy _ | Killpg _ _ _ => true
  | _ => false
  end.

(** *** TLS context selection (lines 160-186) *)

(** The entries of [aj.config.data] read when the listener is wrapped. *)
Record config := Config {
  bind_mode : pyval;              (* data['bind']['mode'] *)
  ssl_enable : pyval;             (* data['ssl']['enable'] *)
  ssl_certificate : pyval;        (* data['ssl']['certificate'] *)
  ssl_fqdn_certificate : pyval;   (* data['ssl']['fqdn_certificate'] *)
  client_auth_enable : pyval;     (* data['ssl']['client_auth']['enable'] *)
  client_auth_force : pyval;      (* data['ssl']['client_auth']['force'] *)
}.

Inductive verify_mode := CERT_NONE | CERT_OPTIONAL | CERT_REQUIRED.

Inductive ssl_option := OP_NO_SSLv2 | OP_NO_SSLv3 | OP_NO_TLSv1 | OP_NO_TLSv1_1.

(** The [SSLContext] as the code leaves it. *)
Record ssl_context := SSLContext {
  certfile : pyval;
  keyfile : pyval;
  options : list ssl_option;
  ciphers : string;
  cafile : option pyval;
  ctx_verify_mode : verify_mode;
}.

(** [None] when the listener is left unwrapped. *)
Definition run_ssl_context (cfg : config) : option ssl_context :=
  if truthy (ssl_enable cfg) && eq_str (bind_mode cfg) "tcp" then
    let cert_path := ssl_certificate cfg in
    let fqdn_cert_path :=
      if truthy (ssl_fqdn_certificate cfg) then ssl_fqdn_certificate cfg
      else cert_path in
    let client := truthy (client_auth_enable cfg) in
    Some {|
      certfile := fqdn_cert_path;
      keyfile := fqdn_cert_path;
      options := [OP_NO_SSLv2; OP_NO_SSLv3; OP_NO_TLSv1; OP_NO_TLSv1_1];
      ciphers := "ALL:!ADH:!EXP:!LOW:!RC2:!3DES:!SEED:!RC4:+HIGH:+MEDIUM";
      cafile := if client then Some cert_path else None;
      ctx_verify_mode :=
        if client then
          if truthy (client_auth_force cfg) then CERT_REQUIRED
          else CERT_OPTIONAL
        else CERT_NONE;
    |}
  else None.

(** *** A small concrete platform, for running the model

    The OS state is the list of live process groups, the list of open
    descriptors and the descendants [psutil] reports.  Signalling a group
    that is not live fails with [ESRCH]; [SIGKILL] removes the group;
    closing a descriptor that is not open fails with [EBADF]. *)
Record simple_os := SimpleOS {
  live_groups : list Z;
  open_fds : list nat;
  descendants : list Z;
}.

Definition ESRCH : Z := 3.
Definition EBADF : Z := 9.

Definition simple_killpg (o : simple_os) (pgid : Z) (sig : signal)
    : simple_os * option exn :=
  if bool_decide (pgid ∈ live_groups o) then
    match sig with
    | SIGKILL =>
        (SimpleOS (filter (λ g, g ≠ pgid) (live_groups o)) (open_fds o)
           (descendants o), None)
    | _ => (o, None)
    end
  else (o, Some (OSError ESRCH)).

Definition simple_close (o : simple_os) (fd : nat) : simple_os * option exn :=
  if bool_decide (fd ∈ open_fds o) then
    (SimpleOS (live_groups o) (filter (λ d, d ≠ fd) (open_fds o))
       (descendants o), None)
  else (o, Some (OSError EBADF)).

#[export] Instance simple_platform : Platform simple_os := {
  os_killpg := simple_killpg;
  os_close := simple_close;
  ps_children := λ o _, descendants o;
  gateway_destroy := λ o, (o, None);
}.

(** A TCP listener with TLS on and no FQDN certificate configured. *)
Definition example_config : config :=
  Config (PStr "tcp") (PBool true) (PStr "/etc/ajenti/ajenti.pem") PNone
         (PBool false) (PBool false).

(** A master process asked to restart: three descendants of which the
    second has already exited, and a few descriptors open above the
    standard streams. *)
Definition example_os : simple_os :=
  SimpleOS [11; 13] [0; 1; 2; 3; 4; 7; 20]%nat [11; 12; 13].

Definition example_proc : proc simple_os :=
  Proc false true true ["/usr/bin/ajenti-panel"; "-d"; "-v"] 100
       HSignalHandler HSignalHandler example_os [].

End Core.

(** ** [itsdangerous.URLSafeTimedSerializer]

    The handlers sign and check password-reset tokens with this
    third-party class.  Its control flow ([Signer.unsign],
    [TimestampSigner.sign] and [unsign], [TimedSerializer.dumps] and
    [loads]) is modelled here on strings; the keyed MAC and the payload
    and timestamp encodings are the parameters of [SignerBackend]. *)
Module Itsdangerous.

Class SignerBackend := {
  (* Signer.get_signature: the encoded MAC of [value] under [secret] *)
  get_signature : string → string → string;
  (* Signer.verify_signature secret value sig *)
  verify_signature : string → string → string → bool;
  (* base64_encode(int_to_bytes(ts)) and its inverse *)
  encode_timestamp : Z → string;
  decode_timestamp : string → option Z;
  (* URLSafeSerializerMixin.dump_payload / load_payload for the dict
     {'user': u, 'email': m}, as the pair (u, m) *)
  dump_payload : pyval * pyval → string;
  load_payload : string → option (pyval * pyval);
}.

Definition sep : ascii := "."%char.

(** [s.rsplit(sep, 1)]: [None] when [sep not in s], otherwise the parts
    before and after the last separator. *)
Fixpoint rsplit (s : string) : option (string * string) :=
  match s with
  | EmptyString => None
  | String c s' =>
      match rsplit s' with
      | Some (a, b) => Some (String c a, b)
      | None => if Ascii.eqb c sep then Some (EmptyString, s') else None
      end
  end.

Section Signer.
Context `{SignerBackend}.

(** [Signer.unsign]: the value, or [BadSignature] with its payload. *)
Definition Signer_unsign (secret signed_value : string)
    : string + option string :=
  match rsplit signed_value with
  | None => inr None
  | Some (value, sig) =>
      if verify_signature secret value sig then inl value
      else inr (Some value)
  end.

(** [TimestampSigner.sign] at time [now] (whole seconds). *)
Definition TimestampSigner_sign (secret : string) (now : Z) (value : string)
    : string :=
  let value := value +:+ "." +:+ encode_timestamp now in
  value +:+ "." +:+ get_signature secret value.

(** [TimestampSigner.unsign(signed_value, max_age)] at time [now]. *)
Definition TimestampSigner_unsign (secret : string) (now max_age : Z)
    (signed_value : string) : result string :=
  let '(sig_error, result) :=
    match Signer_unsign secret signed_value with
    | inl value => (false, value)
    | inr payload => (true, default "" payload)
    end in
  match rsplit result with
  | None => if sig_error then Raise BadSignature else Raise BadTimeSignature
  | Some (value, ts_bytes) =>
      if sig_error then Raise BadTimeSignature
      else
        match decode_timestamp ts_bytes with
        | None => Raise BadTimeSignature
        | Some ts_int =>
            let age := now - ts_int in
            if (age >? max_age)%Z then Raise SignatureExpired
            else if (age <? 0)%Z then Raise SignatureExpired
            else Ok value
        end
  end.

(** [serializer.dumps(obj)] at time [now]. *)
Definition dumps (secret : string) (now : Z) (obj : pyval * pyval) : string :=
  TimestampSigner_sign secret now (dump_payload obj).

(** [serializer.loads(s, max_age=max_age)] at time [now]. *)
Definition loads (secret : string) (now max_age : Z) (s : string)
    : result (pyval * pyval) :=
  match TimestampSigner_unsign secret now max_age s with
  | Ok base64d =>
      match load_payload base64d with
      | Some obj => Ok obj
      | None => Raise BadPayload
      end
  | Raise e => Raise e
  end.

End Signer.
End Itsdangerous.

(** ** [plugins/core/views/api.py] *)
Module Api.
Import Itsdangerous.

(** *** Python numbers

    An [int] is unbounded; a [float] is an IEEE 754 binary64 number, with
    53 bits of precision, rounded to nearest, ties to even. *)
Inductive number :=
| PyInt (z : Z)
| PyFloat (f : spec_float).

Definition prec : Z := 53.
Definition emax : Z := 1024.

(** [float(z)] for an int: the nearest double, or [OverflowError] when
    [z] is too large for one. *)
Definition float_of_int (z : Z) : result spec_float :=
  match binary_normalize prec emax z 0 false with
  | S754_infinity _ => Raise (OtherError "OverflowError")
  | f => Ok f
  end.

(** The operand of a mixed or float operation, as a double. *)
Definition to_float (x : number) : result spec_float :=
  match x with
  | PyInt z => float_of_int z
  | PyFloat f => Ok f
  end.

(** [x + y]: exact on two ints, in doubles otherwise. *)
Definition py_add (x y : number) : result number :=
  match x, y with
  | PyInt a, PyInt b => Ok (PyInt (a + b))
  | _, _ =>
      match to_float x, to_float y with
      | Ok a, Ok b => Ok (PyFloat (SFadd prec emax a b))
      | Raise e, _ | _, Raise e => Raise e
      end
  end.

(** [x - y]. *)
Definition py_sub (x y : number) : result number :=
  match x, y with
  | PyInt a, PyInt b => Ok (PyInt (a - b))
  | _, _ =>
      match to_float x, to_float y with
      | Ok a, Ok b => Ok (PyFloat (SFsub prec emax a b))
      | Raise e, _ | _, Raise e => Raise e
      end
  end.

(** The integer part of a finite double, cut toward zero. *)
Definition trunc (f : spec_float) : Z :=
  match f with
  | S754_finite s m e => cond_Zopp s (Z.shiftl (Z.pos m) e)
  | _ => 0
  end.

(** [int(x)]: truncation toward zero; [OverflowError] on an infinity and
    [ValueError] on a NaN. *)
Definition int_of_number (x : number) : result Z :=
  match x with
  | PyInt z => Ok z
  | PyFloat (S754_infinity _) => Raise (OtherError "OverflowError")
  | PyFloat S754_nan => Raise (OtherError "ValueError")
  | PyFloat f => Ok (trunc f)
  end.

(** Truthiness of a number: zero, of either kind and sign, is falsy. *)
Definition truthy_number (x : number) : bool :=
  match x with
  | PyInt z => negb (Z.eqb z 0)
  | PyFloat (S754_zero _) => false
  | PyFloat _ => true
  end.

(** The double nearest to a rational: the rational itself when it is a
    double.  [time()] returns the clock in this form. *)
Definition float_of_Q (q : Q) : spec_float :=
  match Qnum q with
  | Z0 => S754_zero false
  | Z.pos n =>
      SFdiv prec emax (S754_finite false n 0) (S754_finite false (Qden q) 0)
  | Z.neg n =>
      SFdiv prec emax (S754_finite true n 0) (S754_finite false (Qden q) 0)
  end.

(** The number a finite double stands for. *)
Definition SF2Q (f : spec_float) : Q :=
  match f with
  | S754_finite s m e => inject_Z (cond_Zopp s (Z.pos m)) * 2 ^ e
  | _ => 0
  end.

(** Zero or an ordinary number: neither an infinity nor a NaN. *)
Definition finite (f : spec_float) : bool :=
  match f with
  | S754_zero _ | S754_finite _ _ _ => true
  | _ => false
  end.

(** Finite and below [2^1022] in magnitude, which leaves room for one
    addition or subtraction without overflow. *)
Definition moderate (f : spec_float) : bool :=
  match f with
  | S754_zero _ => true
  | S754_finite _ m e =>
      (Z.pos (digits2_pos m) + e <=? 1022) && (e <=? emax - prec)
  | _ => false
  end.

(** The sign of a float, when it has one. *)
Definition has_sign (s : bool) (f : spec_float) : Prop :=
  match f with
  | S754_zero s' | S754_infinity s' | S754_finite s' _ _ => s' = s
  | S754_nan => False
  end.

(** A float that is zero or negative; a float that is zero or positive.
    Neither holds of a NaN. *)
Definition not_positive (f : spec_float) : Prop :=
  match f with
  | S754_zero _ => True
  | S754_finite s _ _ | S754_infinity s => s = true
  | S754_nan => False
  end.

Definition not_negative (f : spec_float) : Prop :=
  match f with
  | S754_zero _ => True
  | S754_finite s _ _ | S754_infinity s => s = false
  | S754_nan => False
  end.

(** An entry of [aj.sessions]. *)
Record session := Session { timestamp : number }.

(** State shared with the other processes and greenlets: the wall clock
    (the value of [time()], in seconds) and the session registry
    [aj.sessions]. *)
Record env := Env {
  clock : Q;
  sessions : gmap string session;
}.

(** The services the handlers call that live outside this file. *)
Class Services := {
  (* AuthenticationService.check_password: auth info, or a falsy value *)
  check_password : pyval → pyval → pyval;
  (* AuthenticationService.check_sudo_password: may raise SudoError *)
  check_sudo_password : pyval → pyval → result pyval;
  (* provider.check_mail: the user name, or a falsy value *)
  check_mail : pyval → pyval;
  (* what worker.update_sessionlist() does to the shared state *)
  update_sessionlist : env → env;
  (* what happens to the shared state during gevent.sleep(seconds) *)
  gevent_sleep : Q → env → env;
}.

Inductive event :=
| CheckPassword (username password : pyval)
| CheckSudoPassword (username password : pyval)
| PrepareSessionRedirect (username auth_info : pyval)
| WorkerTerminate
| UpdateSessionlist
| LogWarning (msg : string)
| Sleep (seconds : Q)
| CheckMail (mail : pyval)
| SendPasswordReset (mail : pyval) (link : string).

(** The request, after [json.loads(http_context.body.decode())]. *)
Record http_context := HttpContext {
  body : gmap string pyval;
  environ : gmap string pyval;    (* http_context.env *)
}.

Record world := World {
  shared : env;
  dev_autologin : bool;                (* aj.dev_autologin *)
  session_max_time : option number;    (* aj.config.data['session_max_time'] *)
  secret : string;                     (* aj.config.data['auth']['secret'] *)
  session_key : string;                (* self.context.session.key *)
  trace : list event;
}.

Definition get {A} (f : world → A) : M world A := λ w, (Ok (f w), w).

Definition emit (e : event) : M world unit :=
  λ w, (Ok tt, World (shared w) (dev_autologin w) (session_max_time w)
                     (secret w) (session_key w) (trace w ++ [e])).

Definition update_shared (f : env → env) : M world unit :=
  λ w, (Ok tt, World (f (shared w)) (dev_autologin w) (session_max_time w)
                     (secret w) (session_key w) (trace w)).

(** [d[key]]. *)
Definition getitem (d : gmap string pyval) (key : string) : M world pyval :=
  match d !! key with
  | Some v => ret v
  | None => raise (KeyError key)
  end.

(** [d.get(key, None)]. *)
Definition dict_get (d : gmap string pyval) (key : string) : pyval :=
  default PNone (d !! key).

(** [int(x)] for the clock [x]: truncation toward zero. *)
Definition py_int (x : Q) : Z := Z.quot (Qnum x) (Zpos (Qden x)).

(** Truthiness of a number-or-None configuration value. *)
Definition truthy_num (v : option number) : bool :=
  match v with
  | None => false
  | Some x => truthy_number x
  end.

(** A computation that only yields or raises. *)
Definition eval {A} (r : result A) : M world A := λ w, (r, w).

Definition is_SudoError (e : exn) : bool :=
  match e with SudoError _ => true | _ => false end.

(** [isinstance(e, (SignatureExpired, BadTimeSignature))];
    [SignatureExpired] is a subclass of [BadTimeSignature], which is a
    subclass of [BadSignature]. *)
Definition is_time_signature_error (e : exn) : bool :=
  match e with
  | SignatureExpired | BadTimeSignature => true
  | _ => false
  end.

Definition message (e : exn) : pyval :=
  match e with SudoError m => m | _ => PNone end.

(** What [handle_api_check_pw_serial] returns: the decoded dict
    [{'user': .., 'email': ..}], or [False]. *)
Inductive serial_reply :=
| Data (user email : pyval)
| ReplyFalse.

Section Handler.
Context {services : Services} {backend : SignerBackend}.

Definition sleep (seconds : Q) : M world unit :=
  emit (Sleep seconds) ;;;
  update_shared (gevent_sleep seconds).

(** Lines 95-146. *)
Definition handle_api_auth (http : http_context)
    : M world (list (string * pyval)) :=
  mode <- getitem (body http) "mode" ;;;
  let username := dict_get (body http) "username" in
  let password := dict_get (body http) "password" in
  if eq_str mode "normal" then
    emit (CheckPassword username password) ;;;
    let auth_info := check_password username password in
    if truthy auth_info then
      emit (PrepareSessionRedirect username auth_info) ;;;
      ret [("success", PBool true); ("username", username)]
    else
      let ip := dict_get (environ http) "REMOTE_ADDR" in
      emit (LogWarning ("Failed login from " +:+ py_str username +:+
                        " at IP : " +:+ py_str ip)) ;;;
      sleep 3 ;;;
      ret [("success", PBool false); ("error", PNone)]
  else if eq_str mode "sudo" then
    let target := PStr "root" in
    try_except
      (emit (CheckSudoPassword username password) ;;;
       ok <- (λ w, (check_sudo_password username password, w)) ;;;
       if truthy ok then
         emit WorkerTerminate ;;;
         emit (PrepareSessionRedirect target PNone) ;;;
         ret [("success", PBool true); ("username", target)]
       else
         sleep 3 ;;;
         ret [("success", PBool false);
              ("error", PStr "Authorization failed")])
      is_SudoError
      (λ e,
         sleep 3 ;;;
         ret [("success", PBool false); ("error", message e)])
  else
    ret [("success", PBool false); ("error", PStr "Invalid mode")].

(** Lines 239-249. *)
Definition handle_api_sessiontime : M world Z :=
  autologin <- get dev_autologin ;;;
  if autologin then ret 86400
  else
    emit UpdateSessionlist ;;;
    update_shared update_sessionlist ;;;
    sleep (1 # 100) ;;;
    configured <- get session_max_time ;;;
    let session_max_time :=
      if truthy_num configured then default (PyInt 0) configured
      else PyInt 3600 in
    key <- get session_key ;;;
    registry <- get (λ w, sessions (shared w)) ;;;
    let timestamp :=
      match registry !! key with
      | Some s => timestamp s
      | None => PyInt 0
      end in
    deadline <- eval (py_add timestamp session_max_time) ;;;
    now <- get (λ w, float_of_Q (clock (shared w))) ;;;
    remaining <- eval (py_sub deadline (PyFloat now)) ;;;
    eval (int_of_number remaining).

(** Lines 263-272.  The function has no [return]: it yields [None]. *)
Definition handle_api_send_pw_reset (http : http_context) : M world unit :=
  mail <- getitem (body http) "mail" ;;;
  origin <- getitem (environ http) "HTTP_ORIGIN" ;;;
  emit (CheckMail mail) ;;;
  let username := check_mail mail in
  when (truthy username)
    (secret <- get secret ;;;
     now <- get (λ w, clock (shared w)) ;;;
     let serial := dumps secret (py_int now) (username, mail) in
     let link := py_str origin +:+ "/view/reset_password/" +:+ serial in
     emit (SendPasswordReset mail link)).

(** Lines 284-294. *)
Definition handle_api_check_pw_serial (http : http_context)
    : M world serial_reply :=
  serial <- getitem (body http) "serial" ;;;
  if truthy serial then
    secret <- get secret ;;;
    now <- get (λ w, clock (shared w)) ;;;
    try_except
      (match serial with
       | PStr s =>
           match loads secret (py_int now) 900 s with
           | Ok (user, email) => ret (Data user email)
           | Raise e => raise e
           end
       | _ => raise (OtherError "TypeError")
       end)
      is_time_signature_error
      (λ err, raise (EndpointError err))
  else ret ReplyFalse.

(** The link mailed to a known user (lines 268-271). *)
Definition reset_link (w : world) (origin mail : pyval) : string :=
  py_str origin +:+ "/view/reset_password/" +:+
  dumps (secret w) (py_int (clock (shared w))) (check_mail mail, mail).

End Handler.

(** [w] after the shared state became [e] and [evs] were appended to the
    trace. *)
Definition extend (w : world) (e : env) (evs : list event) : world :=
  World e (dev_autologin w) (session_max_time w) (secret w) (session_key w)
        (trace w ++ evs).

(** [x in s] for strings: [x] occurs in [s]. *)
Definition occurs_in (x s : string) : Prop :=
  ∃ before after, s = before +:+ x +:+ after.

(** [session_max_time] as line 245 computes it. *)
Definition effective_session_max_time (configured : option number) : number :=
  if truthy_num configured then default (PyInt 0) configured else PyInt 3600.

(** [timestamp] as lines 246-248 compute it. *)
Definition session_timestamp (registry : gmap string session) (key : string)
    : number :=
  match registry !! key with
  | Some s => timestamp s
  | None => PyInt 0
  end.

(** [int(timestamp + session_max_time - now)] as line 249 computes it,
    with the exceptions its operations raise. *)
Definition remaining_time (timestamp session_max_time : number)
    (now : spec_float) : result Z :=
  match py_add timestamp session_max_time with
  | Ok deadline =>
      match py_sub deadline (PyFloat now) with
      | Ok remaining => int_of_number remaining
      | Raise e => Raise e
      end
  | Raise e => Raise e
  end.

(** *** Concrete services and a concrete signer, for running the model *)

Definition digits (z : Z) : string := NilZero.string_of_int (Z.to_int z).

Fixpoint checksum (s : string) : Z :=
  match s with
  | EmptyString => 7
  | String c s' => (Z.of_N (N_of_ascii c) + 31 * checksum s') mod 65521
  end.

(** The parts of [s] before and after its first ["|"]. *)
Fixpoint split_bar (s : string) : option (string * string) :=
  match s with
  | EmptyString => None
  | String c s' =>
      if Ascii.eqb c "|"%char then Some (EmptyString, s')
      else match split_bar s' with
           | Some (a, b) => Some (String c a, b)
           | None => None
           end
  end.

#[export] Instance toy_signer : SignerBackend := {
  get_signature secret value := digits (checksum (secret +:+ value));
  verify_signature secret value sig :=
    String.eqb sig (digits (checksum (secret +:+ value)));
  encode_timestamp := digits;
  decode_timestamp s := option_map Z.of_int (NilZero.int_of_string s);
  dump_payload obj := py_str obj.1 +:+ "|" +:+ py_str obj.2;
  load_payload s :=
    match split_bar s with
    | Some (u, m) => Some (PStr u, PStr m)
    | None => None
    end;
}.

#[export] Instance toy_services : Services := {
  check_password u p :=
    if eq_str u "alice" && eq_str p "wonderland" then PStr "alice" else PBool false;
  check_sudo_password u p :=
    if eq_str p "" then Raise (SudoError (PStr "Password required"))
    else Ok (PBool (eq_str u "alice" && eq_str p "wonderland"));
  check_mail m :=
    if eq_str m "alice@example.org" then PStr "alice" else PBool false;
  update_sessionlist e :=
    Env (clock e) ((λ _, Session (PyInt (py_int (clock e)))) <$> sessions e);
  gevent_sleep seconds e := Env (clock e + seconds) (sessions e);
}.

(** A provider that knows no mail address at all. *)
Definition no_mail_services : Services := {|
  check_password := λ _ _, PBool false;
  check_sudo_password := λ _ _, Ok (PBool false);
  check_mail := λ _, PBool false;
  update_sessionlist := λ e, e;
  gevent_sleep := λ seconds e, Env (clock e + seconds) (sessions e);
|}.

Definition example_world : world :=
  World (Env 1000 {[ "k1" := Session (PyInt 100) ]}) false None "s3cr3t" "k1"
        [].

(** Services under which the shared state stands still: no other
    process refreshes the registry and the clock does not move during a
    sleep. *)
Definition still_services : Services := {|
  check_password := λ _ _, PBool false;
  check_sudo_password := λ _ _, Ok (PBool false);
  check_mail := λ _, PBool false;
  update_sessionlist := λ e, e;
  gevent_sleep := λ _ e, e;
|}.

(** A session last seen at time 100 with an idle window of 600 s, looked
    at long after, at time 10000. *)
Definition expired_world : world :=
  World (Env 10000 {[ "k1" := Session (PyInt 100) ]}) false
        (Some (PyInt 600)) "s3cr3t" "k1" [].

(** A session with a float timestamp, looked at in the same instant,
    with an idle window just under ten minutes. *)
Definition float_world : world :=
  World (Env 1700000000
           {[ "k1" := Session (PyFloat (float_of_Q 1700000000)) ]})
        false (Some (PyFloat (float_of_Q (5999999999 # 10000000))))
        "s3cr3t" "k1" [].

(** Requests used in the examples. *)
Definition sudo_request : http_context :=
  HttpContext
    (list_to_map [("mode", PStr "sudo"); ("username", PStr "alice");
                  ("password", PStr "wonderland")])
    (list_to_map [("REMOTE_ADDR", PStr "10.0.0.5")]).

Definition failed_login_request : http_context :=
  HttpContext
    (list_to_map [("mode", PStr "normal"); ("username", PStr "bob");
                  ("password", PStr "guess")])
    (list_to_map [("REMOTE_ADDR", PStr "10.0.0.5")]).

Definition bad_mode_request : http_context :=
  HttpContext
    (list_to_map [("mode", PStr "token"); ("username", PStr "bob");
                  ("password", PStr "guess")])
    (list_to_map [("REMOTE_ADDR", PStr "10.0.0.5")]).

Definition reset_request : http_context :=
  HttpContext
    (list_to_map [("mail", PStr "alice@example.org")])
    (list_to_map [("HTTP_ORIGIN", PStr "https://panel.example.org")]).

(** The token the concrete signer issues to alice at time 1000. *)
Definition example_serial : string :=
  dumps "s3cr3t" 1000 (PStr "alice", PStr "alice@example.org").

Definition check_request (serial : string) : http_context :=
  HttpContext (list_to_map [("serial", PStr serial)]) ∅.

(** [w] with its clock moved to [now]. *)
Definition at_time (now : Q) (w : world) : world :=
  World (Env now (sessions (shared w))) (dev_autologin w)
        (session_max_time w) (secret w) (session_key w) (trace w).

Definition request (fields : list (string * pyval))
    (environ : list (string * pyval)) : http_context :=
  HttpContext (list_to_map fields) (list_to_map environ).

End Api.

(** ** [plugins/core/views/api.py]: the languages endpoint and helpers
    for reading replies and traces *)
From stdpp Require sorting.
From Stdlib Require Sorting.Sorted.

Module ApiMore.
Import Api.

(** [reply[key]] for a reply dict, [None] when the key is absent. *)
Fixpoint reply_get (key : string) (reply : list (string * pyval))
    : option pyval :=
  match reply with
  | [] => None
  | (k, v) :: reply' => if String.eqb k key then Some v else reply_get key reply'
  end.

(** Lines 215-222: the set [languages] after the loops.  [plugins] are the
    ids the plugin manager iterates over; [locale_listing id] is
    [os.listdir] of the plugin's locale directory, or [None] when that is
    not a directory. *)
Definition collect_languages (plugins : list string)
    (locale_listing : string → option (list string)) : gset string :=
  foldl
    (λ languages id,
       match locale_listing id with
       | Some names =>
           foldl
             (λ languages lang,
                if negb (String.eqb lang "app.pot") then languages ∪ {[ lang ]}
                else languages)
             languages names
       | None => languages
       end)
    ∅ plugins.

(** Lines 215-224: [sorted(list(languages))]. *)
Definition handle_api_languages (plugins : list string)
    (locale_listing : string → option (list string)) : list string :=
  sorting.merge_sort String.le
    (elements (collect_languages plugins locale_listing)).

(** Requests used in the examples. *)
Definition login_request : http_context :=
  HttpContext
    (list_to_map [("mode", PStr "normal"); ("username", PStr "alice");
                  ("password", PStr "wonderland")])
    (list_to_map [("REMOTE_ADDR", PStr "10.0.0.7")]).

Definition failed_sudo_request : http_context :=
  HttpContext
    (list_to_map [("mode", PStr "sudo"); ("username", PStr "alice");
                  ("password", PStr "guess")])
    ∅.

Definition empty_sudo_request : http_context :=
  HttpContext
    (list_to_map [("mode", PStr "sudo"); ("username", PStr "alice");
                  ("password", PStr "")])
    ∅.

(** A provider whose [sudo] check breaks down. *)
Definition broken_services : Services := {|
  check_password := λ _ _, PBool false;
  check_sudo_password := λ _ _, Raise (OSError 5);
  check_mail := λ _, PBool false;
  update_sessionlist := λ e, e;
  gevent_sleep := λ seconds e, Env (clock e + seconds) (sessions e);
|}.

(** Two plugins with overlapping locale directories, and one without. *)
Definition example_listing (id : string) : option (list string) :=
  if String.eqb id "core" then Some ["fr_FR"; "app.pot"; "de_DE"]
  else if String.eqb id "dashboard" then Some ["de_DE"; "app.pot"; "cs_CZ"]
  else None.

End ApiMore.

(** ** [aj/core.py]: start-up of [run] (lines 76-79 and 109-142) *)
From Stdlib Require Strings.Byte.

Module Startup.
Import Core.

(** *** Secret generation (lines 76-79) *)

Inductive config_event :=
| ConfigLog (lvl : level) (fmt : string) (args : list pyval)
| ConfigSave (secret : pyval).   (* aj.config.save() with this secret *)

Definition hex_digit (n : N) : ascii :=
  nth (N.to_nat n)
      ["0"; "1"; "2"; "3"; "4"; "5"; "6"; "7";
       "8"; "9"; "a"; "b"; "c"; "d"; "e"; "f"]%char "0"%char.

(** [bytes.hex()]. *)
Fixpoint hex (bs : list Init.Byte.byte) : string :=
  match bs with
  | [] => ""
  | b :: bs' =>
      String (hex_digit (Strings.Byte.to_N b / 16))
        (String (hex_digit (Strings.Byte.to_N b mod 16)) (hex bs'))
  end.

(** Lines 76-79, given the bytes [os.urandom(16)] returns: the secret
    afterwards and what was logged and saved. *)
Definition ensure_secret (urandom16 : list Init.Byte.byte) (secret : pyval)
    : pyval * list config_event :=
  if negb (truthy secret) then
    let secret := PStr (hex urandom16) in
    (secret,
     [ConfigLog INFO
        "No secret found, generating new and writing it in config.yml" [];
      ConfigSave secret])
  else (secret, []).

Definition is_hex_char (c : ascii) : bool :=
  existsb (Ascii.eqb c)
    ["0"; "1"; "2"; "3"; "4"; "5"; "6"; "7";
     "8"; "9"; "a"; "b"; "c"; "d"; "e"; "f"]%char.

(** The value of a hexadecimal digit. *)
Definition hex_value (c : ascii) : option N :=
  let n := N_of_ascii c in
  if (48 <=? n)%N && (n <=? 57)%N then Some (n - 48)%N
  else if (97 <=? n)%N && (n <=? 102)%N then Some (n - 87)%N
  else None.

(** [bytes.fromhex(s)] for a string of lowercase digit pairs: the bytes
    that [s] spells, or [None] when [s] is not such a string. *)
Fixpoint fromhex (s : string) : option (list Init.Byte.byte) :=
  match s with
  | EmptyString => Some []
  | String hi (String lo s') =>
      match hex_value hi, hex_value lo, fromhex s' with
      | Some h, Some l, Some bs =>
          match Strings.Byte.of_N (16 * h + l) with
          | Some b => Some (b :: bs)
          | None => None
          end
      | _, _, _ => None
      end
  | String _ EmptyString => None
  end.

(** *** Listener bootstrap (lines 109-142) *)

Inductive family := AF_UNIX | AF_INET | AF_INET6.

Inductive sockopt := TCP_CORK | SO_REUSEADDR.

Inductive address :=
| UnixAddress (path : string)
| InetAddress (host : string) (port : pyval).

(** The file system and socket layer.  Each call returns the new OS state
    and the exception it raised, if any. *)
Class Network (OS : Type) := {
  os_path_exists : OS → string → bool;
  os_unlink : OS → string → OS * option exn;
  os_socket : OS → family → OS * option exn;
  os_setsockopt : OS → sockopt → OS * option exn;
  os_bind : OS → address → OS * option exn;
  os_listen : OS → Z → OS * option exn;
  exn_str : exn → string;    (* str(e) *)
}.

Inductive event :=
| Log (lvl : level) (fmt : string) (args : list pyval)
| PathExists (path : string) (answer : bool)
| Unlink (path : string) (outcome : option exn)
| Socket (fam : family) (outcome : option exn)
| SetSockOpt (opt : sockopt) (outcome : option exn)
| Bind (addr : address) (outcome : option exn)
| Listen (backlog : Z) (outcome : option exn)
| SysExit (code : Z).

(** [aj.config.data['bind']]. *)
Record bind_config := BindConfig {
  mode : pyval;
  socket : string;
  host : string;
  port : pyval;
}.

(** [':' in host]. *)
Fixpoint has_colon (s : string) : bool :=
  match s with
  | EmptyString => false
  | String c s' => Ascii.eqb c ":"%char || has_colon s'
  end.

Section Listener.
Context {OS : Type} `{Network OS}.

Record boot := Boot {
  listener : option family;   (* the local [listener], once assigned *)
  net : OS;
  trace : list event;
}.

Definition get {A} (f : boot → A) : M boot A := λ s, (Ok (f s), s).

Definition emit (e : event) : M boot unit :=
  λ s, (Ok tt, Boot (listener s) (net s) (trace s ++ [e])).

Definition set_net (o : OS) : M boot unit :=
  λ s, (Ok tt, Boot (listener s) o (trace s)).

Definition set_listener (fam : family) : M boot unit :=
  λ s, (Ok tt, Boot (Some fam) (net s) (trace s)).

Definition syscall (call : OS → OS * option exn)
    (record : option exn → event) : M boot unit :=
  o <- get net ;;;
  let '(o', r) := call o in
  set_net o' ;;;
  emit (record r) ;;;
  match r with
  | None => ret tt
  | Some e => raise e
  end.

(** [sys.exit(code)] raises [SystemExit]. *)
Definition sys_exit (code : Z) : M boot unit :=
  emit (SysExit code) ;;;
  raise (OtherError "SystemExit").

(** Lines 110-118. *)
Definition bind_unix (path : string) : M boot unit :=
  o <- get net ;;;
  let found := os_path_exists o path in
  emit (PathExists path found) ;;;
  when found (syscall (λ o, os_unlink o path) (Unlink path)) ;;;
  syscall (λ o, os_socket o AF_UNIX) (Socket AF_UNIX) ;;;
  set_listener AF_UNIX ;;;
  try_except
    (syscall (λ o, os_bind o (UnixAddress path)) (Bind (UnixAddress path)))
    is_OSError
    (λ _,
       emit (Log ERROR "Could not bind to %s" [PStr path]) ;;;
       sys_exit 1).

(** Lines 121-137; [platform] is [aj.platform]. *)
Definition bind_tcp (platform host : string) (port : pyval) : M boot unit :=
  let fam := if has_colon host then AF_INET6 else AF_INET in
  syscall (λ o, os_socket o fam) (Socket fam) ;;;
  set_listener fam ;;;
  when (negb (py_in platform ["freebsd"; "osx"]))
    (try_except
       (syscall (λ o, os_setsockopt o TCP_CORK) (SetSockOpt TCP_CORK))
       is_OSError
       (λ _, emit (Log WARNING "Could not set TCP_CORK" []))) ;;;
  syscall (λ o, os_setsockopt o SO_REUSEADDR) (SetSockOpt SO_REUSEADDR) ;;;
  emit (Log INFO "Binding to [%s]:%s" [PStr host; port]) ;;;
  try_except
    (syscall (λ o, os_bind o (InetAddress host port))
       (Bind (InetAddress host port)))
    is_OSError
    (λ e,
       emit (Log ERROR "Could not bind: %s" [PStr (exn_str e)]) ;;;
       sys_exit 1).

(** Lines 109-142.  Reading the local [listener] before any branch has
    assigned it raises [UnboundLocalError]. *)
Definition run_listener (cfg : bind_config) (platform : string)
    : M boot unit :=
  when (eq_str (mode cfg) "unix") (bind_unix (socket cfg)) ;;;
  when (eq_str (mode cfg) "tcp") (bind_tcp platform (host cfg) (port cfg)) ;;;
  bound <- get listener ;;;
  match bound with
  | None => raise (OtherError "UnboundLocalError")
  | Some _ => syscall (λ o, os_listen o 10) (Listen 10)
  end.

End Listener.

Arguments boot : clear implicits.

(** The error line logged when binding [addr] failed with [e] (lines 117
    and 136). *)
Definition bind_failure_log {OS : Type} `{Network OS} (addr : address)
    (e : exn) : event :=
  match addr with
  | UnixAddress path => Log ERROR "Could not bind to %s" [PStr path]
  | InetAddress _ _ => Log ERROR "Could not bind: %s" [PStr (exn_str e)]
  end.

(** *** A small concrete network, for running the model

    The OS state is the list of paths and addresses in use.  Binding an
    address in use fails with [EADDRINUSE]; unlinking removes a path;
    [TCP_CORK] is not supported. *)
Definition EADDRINUSE : Z := 98.
Definition ENOPROTOOPT : Z := 92.

Definition address_key (addr : address) : string :=
  match addr with
  | UnixAddress path => path
  | InetAddress host port => host +:+ ":" +:+ py_str port
  end.

#[export] Instance simple_network : Network (list string) := {
  os_path_exists o path := bool_decide (path ∈ o);
  os_unlink o path := (filter (λ p, p ≠ path) o, None);
  os_socket o _ := (o, None);
  os_setsockopt o opt :=
    match opt with
    | TCP_CORK => (o, Some (OSError ENOPROTOOPT))
    | SO_REUSEADDR => (o, None)
    end;
  os_bind o addr :=
    if bool_decide (address_key addr ∈ o) then (o, Some (OSError EADDRINUSE))
    else (address_key addr :: o, None);
  os_listen o _ := (o, None);
  exn_str e := match e with OSError n => py_str (PInt n) | _ => "" end;
}.

Definition unix_config : bind_config :=
  BindConfig (PStr "unix") "/var/run/ajenti.sock" "" PNone.

Definition tcp_config : bind_config :=
  BindConfig (PStr "tcp") "" "::1" (PInt 8000).

Definition sixteen_bytes : list Init.Byte.byte :=
  [Init.Byte.x00; Init.Byte.x01; Init.Byte.x7f; Init.Byte.x80;
   Init.Byte.xa5; Init.Byte.xff; Init.Byte.x10; Init.Byte.x0f;
   Init.Byte.x00; Init.Byte.x01; Init.Byte.x7f; Init.Byte.x80;
   Init.Byte.xa5; Init.Byte.xff; Init.Byte.x10; Init.Byte.x0f].

End Startup.

(** * Properties *)

(** ** The cleanup procedure *)
Section CleanupFacts.
Import Core.
Context {OS : Type} `{Platform OS}.

Lemma advance_nil (s : proc OS) : advance s (os_state s) [] = s.
Proof. destruct s; unfold advance; simpl. by rewrite app_nil_r. Qed.

Lemma advance_advance (s : proc OS) o1 o2 evs1 evs2 :
  advance (advance s o1 evs1) o2 evs2 = advance s o2 (evs1 ++ evs2).
Proof. unfold advance; simpl. by rewrite app_assoc. Qed.

(** One round of the loop, in closed form. *)
Lemma signal_child_eq (c : Z) (s : proc OS) :
  signal_child c s =
  match os_killpg (os_state s) c SIGTERM with
  | (o1, Some e) =>
      (if is_OSError e then Ok tt else Raise e,
       advance s o1 [Killpg c SIGTERM (Some e)])
  | (o1, None) =>
      match os_killpg o1 c SIGKILL with
      | (o2, Some e) =>
          (if is_OSError e then Ok tt else Raise e,
           advance s o2 [Killpg c SIGTERM None; Killpg c SIGKILL (Some e)])
      | (o2, None) =>
          (Ok tt,
           advance s o2 [Killpg c SIGTERM None; Killpg c SIGKILL None])
      end
  end.
Proof.
  unfold signal_child, try_except, killpg, syscall, bind, get, set_os, emit,
    ret, raise, advance; simpl.
  destruct (os_killpg (os_state s) c SIGTERM) as [o1 [e1|]]; simpl.
  - by destruct (is_OSError e1).
  - destruct (os_killpg o1 c SIGKILL) as [o2 [e2|]]; simpl;
      rewrite <- app_assoc; simpl; [by destruct (is_OSError e2) | done].
Qed.

(** Only [OSError] is swallowed: any other exception raised by the
    terminate call leaves the round. *)
Lemma signal_child_propagates (c : Z) (s : proc OS) (o : OS) (e : exn) :
  os_killpg (os_state s) c SIGTERM = (o, Some e) →
  is_OSError e = false →
  (signal_child c s).1 = Raise e.
Proof. intros Hcall He. by rewrite signal_child_eq, Hcall, He. Qed.

(** Whatever the OS answers, the loop only signals, and it leaves the rest
    of the process state alone. *)
Lemma kill_loop_frame (cs : list Z) : ∀ s : proc OS,
  ∃ o evs, (for_each cs signal_child s).2 = advance s o evs
           ∧ Forall (λ e, is_killpg e = true) evs.
Proof.
  induction cs as [|c cs IH]; intros s.
  - exists (os_state s), []. split; [by rewrite advance_nil | constructor].
  - cbn [for_each]. unfold bind at 1. rewrite signal_child_eq.
    destruct (os_killpg (os_state s) c SIGTERM) as [o1 [e1|]].
    + destruct (is_OSError e1).
      * destruct (IH (advance s o1 [Killpg c SIGTERM (Some e1)]))
          as (o & evs & -> & Hevs).
        exists o, ([Killpg c SIGTERM (Some e1)] ++ evs).
        rewrite advance_advance. split; [done|].
        by apply Forall_app; split; [repeat constructor|].
      * exists o1, [Killpg c SIGTERM (Some e1)]. by repeat constructor.
    + destruct (os_killpg o1 c SIGKILL) as [o2 [e2|]].
      * destruct (is_OSError e2).
        -- destruct (IH (advance s o2
              [Killpg c SIGTERM None; Killpg c SIGKILL (Some e2)]))
             as (o & evs & -> & Hevs).
           eexists o, (_ ++ evs). rewrite advance_advance. split; [done|].
           by apply Forall_app; split; [repeat constructor|].
        -- eexists o2, _. by repeat constructor.
      * destruct (IH (advance s o2
            [Killpg c SIGTERM None; Killpg c SIGKILL None]))
          as (o & evs & -> & Hevs).
        eexists o, (_ ++ evs). rewrite advance_advance. split; [done|].
        by apply Forall_app; split; [repeat constructor|].
Qed.

(** When signalling fails only with [OSError], the loop runs to its end
    and handles the children one after the other. *)
Lemma kill_loop_blocks
    (Hos : ∀ o pg sg e, (os_killpg o pg sg).2 = Some e → is_OSError e = true)
    (cs : list Z) : ∀ s : proc OS,
  ∃ blocks o, for_each cs signal_child s = (Ok tt, advance s o (concat blocks))
              ∧ Forall2 child_block cs blocks.
Proof.
  induction cs as [|c cs IH]; intros s.
  - exists [], (os_state s). simpl. rewrite advance_nil. by split; [|constructor].
  - cbn [for_each]. unfold bind at 1. rewrite signal_child_eq.
    destruct (os_killpg (os_state s) c SIGTERM) as [o1 [e1|]] eqn:E1.
    + rewrite (Hos _ _ _ e1 (f_equal snd E1)).
      destruct (IH (advance s o1 [Killpg c SIGTERM (Some e1)]))
        as (blocks & o & -> & Hblocks).
      exists ([Killpg c SIGTERM (Some e1)] :: blocks), o.
      rewrite advance_advance. split; [done|].
      constructor; [|done]. constructor. exact (Hos _ _ _ e1 (f_equal snd E1)).
    + destruct (os_killpg o1 c SIGKILL) as [o2 r2] eqn:E2.
      assert (∃ blocks o,
        for_each cs signal_child
          (advance s o2 [Killpg c SIGTERM None; Killpg c SIGKILL r2])
        = (Ok tt, advance s o (concat
             ([Killpg c SIGTERM None; Killpg c SIGKILL r2] :: blocks)))
        ∧ Forall2 child_block cs blocks) as (blocks & o & Hrun & Hblocks).
      { destruct (IH (advance s o2
          [Killpg c SIGTERM None; Killpg c SIGKILL r2]))
          as (blocks & o & -> & Hblocks).
        exists blocks, o. by rewrite advance_advance. }
      exists ([Killpg c SIGTERM None; Killpg c SIGKILL r2] :: blocks), o.
      split; [|by constructor; [constructor|]].
      destruct r2 as [e2|]; [|done].
      by rewrite (Hos _ _ _ e2 (f_equal snd E2)).
Qed.

Lemma cleanup_started_noop (s : proc OS) :
  cleanup_started s = true → cleanup s = (Ok tt, s).
Proof. intros Hs. unfold cleanup, bind, get. by rewrite Hs. Qed.

Lemma count_app (f : event → bool) (tr1 tr2 : list event) :
  count f (tr1 ++ tr2) = (count f tr1 + count f tr2)%nat.
Proof. unfold count. by rewrite List.filter_app, length_app. Qed.

Lemma count_killpg_only (f : event → bool) (evs : list event) :
  (∀ pg sg r, f (Killpg pg sg r) = false) →
  Forall (λ e, is_killpg e = true) evs → count f evs = 0%nat.
Proof.
  intros Hf Hevs. induction Hevs as [|e evs He _ IH]; [done|].
  destruct e; try discriminate He.
  unfold count in *. simpl. by rewrite Hf.
Qed.

(** A first call of [cleanup], in closed form. *)
Lemma cleanup_fresh_eq (s : proc OS) :
  cleanup_started s = false →
  cleanup s =
  if aj_master s then
    match gateway_destroy (os_state s) with
    | (o, Some e) => (Raise e, advance (entered s) o [GatewayDestroy (Some e)])
    | (o, None) => kill_children (advance (entered s) o [GatewayDestroy None])
    end
  else kill_children (entered s).
Proof.
  intros Hs. unfold cleanup, bind at 1, get at 1. rewrite Hs.
  unfold bind at 1, set_started at 1.
  unfold bind at 1, get at 1. cbn [getpid].
  unfold bind at 1, emit at 1. cbn -[bind kill_children syscall].
  unfold bind at 1, gevent_signal_handler at 1. cbn -[bind kill_children syscall].
  unfold bind at 1, gevent_signal_handler at 1. cbn -[bind kill_children syscall].
  unfold bind at 1, get at 1. cbn -[bind kill_children syscall].
  fold (entered s). unfold bind at 1.
  destruct (aj_master s); [|done].
  unfold when, syscall, bind, get, set_os, emit, ret, raise, advance.
  cbn -[kill_children].
  by destruct (gateway_destroy (os_state s)) as [o [e|]].
Qed.


(** The other way out of a first call in the master: when the destroy hook
    raises, [cleanup] ends in that exception before the loop, and no child
    is signalled. *)
Lemma cleanup_destroy_raises (s : proc OS) (o : OS) (e : exn) :
  cleanup_started s = false →
  aj_master s = true →
  gateway_destroy (os_state s) = (o, Some e) →
  cleanup s = (Raise e, advance (entered s) o [GatewayDestroy (Some e)]).
Proof.
  intros Hs Hm Hd. by rewrite (cleanup_fresh_eq s Hs), Hm, Hd.
Qed.

Lemma kill_children_frame (s : proc OS) :
  ∃ o evs, (kill_children s).2 = advance s o evs
           ∧ Forall (λ e, is_killpg e = true) evs.
Proof. unfold kill_children, bind, get. apply kill_loop_frame. Qed.

(** What one call of [cleanup] adds to the trace. *)
Lemma cleanup_added (s : proc OS) :
  ∃ added,
    trace (cleanup s).2 = trace s ++ added
    ∧ cleanup_started (cleanup s).2 = true
    ∧ count is_body_entry added = (if cleanup_started s then 0 else 1)%nat
    ∧ (count is_gateway_destroy added ≤ 1)%nat.
Proof.
  destruct (cleanup_started s) eqn:Hs.
  - rewrite (cleanup_started_noop s Hs). exists []. simpl.
    rewrite app_nil_r. repeat split; auto.
  - rewrite (cleanup_fresh_eq s Hs).
    set (entry := Log INFO "Process %s exiting normally" [PInt (getpid s)]).
    assert (Hcount : ∀ (f : event → bool) pre evs,
      f = is_body_entry ∨ f = is_gateway_destroy →
      Forall (λ e, is_killpg e = true) evs →
      count f (pre ++ evs) = count f pre).
    { intros f pre evs Hf Hevs.
      rewrite count_app, (count_killpg_only f evs); [lia| |done].
      by destruct Hf as [-> | ->]. }
    destruct (aj_master s).
    + destruct (gateway_destroy (os_state s)) as [o [e|]].
      * exists [entry; GatewayDestroy (Some e)].
        split; [|split; [|split]]; [|done|by compute|compute; lia].
        unfold advance, entered; simpl. by rewrite <- app_assoc.
      * destruct (kill_children_frame
                    (advance (entered s) o [GatewayDestroy None]))
          as (o' & evs & -> & Hevs).
        exists ([entry; GatewayDestroy None] ++ evs).
        rewrite !Hcount by auto.
        split; [|split; [|split]]; [|done|by compute|compute; lia].
        unfold advance, entered; simpl. by rewrite <- !app_assoc.
    + destruct (kill_children_frame (entered s)) as (o' & evs & -> & Hevs).
      exists ([entry] ++ evs).
      rewrite !Hcount by auto.
      split; [|split; [|split]]; [|done|by compute|compute; lia].
      unfold advance, entered; simpl. by rewrite <- !app_assoc.
Qed.

(** C1: cleanup is idempotent.  From any process state, a second call of
    [cleanup] right after the first returns at once and changes nothing:
    no further log line, gateway destroy or signal.  Over the two calls
    the body is entered at most once (exactly once when cleanup had not
    started before, never otherwise) and the gateway's destroy hook runs
    at most once. *)
Theorem cleanup_idempotent (s : proc OS) :
  let s1 := (cleanup s).2 in
  let s2 := (cleanup s1).2 in
  cleanup s1 = (Ok tt, s1)
  ∧ ∃ added,
      trace s2 = trace s ++ added
      ∧ (count is_body_entry added ≤ 1)%nat
      ∧ count is_body_entry added = (if cleanup_started s then 0 else 1)%nat
      ∧ (count is_gateway_destroy added ≤ 1)%nat.
Proof.
  intros s1 s2.
  destruct (cleanup_added s) as (added & Htrace & Hstarted & Hbody & Hdestroy).
  assert (Hnoop : cleanup s1 = (Ok tt, s1))
    by exact (cleanup_started_noop s1 Hstarted).
  split; [exact Hnoop|].
  exists added. subst s2. rewrite Hnoop. simpl.
  repeat split; auto.
  rewrite Hbody. destruct (cleanup_started s); lia.
Qed.

End CleanupFacts.

Section CleanupExamples.
Import Core.

Lemma simple_killpg_raises_OSError (o : simple_os) pg sg e :
  (os_killpg o pg sg).2 = Some e → is_OSError e = true.
Proof.
  simpl. unfold simple_killpg.
  destruct (bool_decide (pg ∈ live_groups o)); [by destruct sg|].
  simpl. by intros [= <-].
Qed.


(** Three children, the second already gone: the first and third get
    both signals, the failure on the second is swallowed. *)
Example kill_children_example :
  (kill_children example_proc).1 = Ok tt
  ∧ trace (kill_children example_proc).2 =
    [Killpg 11 SIGTERM None; Killpg 11 SIGKILL None;
     Killpg 12 SIGTERM (Some (OSError ESRCH));
     Killpg 13 SIGTERM None; Killpg 13 SIGKILL None].
Proof. by vm_compute. Qed.

(** Two calls of [cleanup] in a row on the master: one log line, one
    gateway destroy, one pass over the children. *)
Example cleanup_twice_example :
  trace (cleanup (cleanup example_proc).2).2 =
  [Log INFO "Process %s exiting normally" [PInt 100];
   GatewayDestroy None;
   Killpg 11 SIGTERM None; Killpg 11 SIGKILL None;
   Killpg 12 SIGTERM (Some (OSError ESRCH));
   Killpg 13 SIGTERM None; Killpg 13 SIGKILL None].
Proof. by vm_compute. Qed.

End CleanupExamples.

(** ** Restart by request *)
Section RestartFacts.
Import Core.
Context {OS : Type} `{Platform OS}.

(** One round of the descriptor loop, in closed form. *)
Lemma close_round_eq (fd : nat) (s : proc OS) :
  try_except
    (close fd ;;; emit (Log DEBUG "Closed descriptor #%i" [PInt (Z.of_nat fd)]))
    is_OSError (λ _, ret tt) s =
  match os_close (os_state s) fd with
  | (o, None) =>
      (Ok tt, advance s o [Close fd None;
                           Log DEBUG "Closed descriptor #%i" [PInt (Z.of_nat fd)]])
  | (o, Some e) =>
      (if is_OSError e then Ok tt else Raise e,
       advance s o [Close fd (Some e)])
  end.
Proof.
  unfold try_except, close, syscall, bind, get, set_os, emit, ret, raise,
    advance; simpl.
  destruct (os_close (os_state s) fd) as [o [e|]]; simpl.
  - by destruct (is_OSError e).
  - by rewrite <- app_assoc.
Qed.

Lemma closed_fds_app (tr1 tr2 : list event) :
  closed_fds (tr1 ++ tr2) = closed_fds tr1 ++ closed_fds tr2.
Proof. apply omap_app. Qed.

(** The loop started at [fd] calls [os.close] on [fd], [fd - 1], ..., 3 and
    ends normally when closing fails only with [OSError]. *)
Lemma close_descriptors_spec
    (Hos : ∀ o fd e, (os_close o fd).2 = Some e → is_OSError e = true)
    (fd : nat) : ∀ s : proc OS,
  ∃ o evs,
    close_descriptors fd s = (Ok tt, advance s o evs)
    ∧ closed_fds evs = rev (seq 3 (fd - 2)).
Proof.
  induction fd as [|fd IH]; intros s.
  - exists (os_state s), []. by rewrite advance_nil.
  - cbn [close_descriptors]. destruct (2 <? S fd)%nat eqn:Hfd.
    + apply Nat.ltb_lt in Hfd.
      unfold bind at 1. rewrite close_round_eq.
      assert (Hrev : ∀ rest, rest = rev (seq 3 (fd - 2)) →
                S fd :: rest = rev (seq 3 (S fd - 2))).
      { intros rest ->. replace (S fd - 2)%nat with (S (fd - 2)) by lia.
        rewrite seq_S, rev_app_distr. simpl. f_equal. lia. }
      destruct (os_close (os_state s) (S fd)) as [o1 [e|]] eqn:E1.
      * rewrite (Hos _ _ e (f_equal snd E1)).
        destruct (IH (advance s o1 [Close (S fd) (Some e)]))
          as (o & evs & -> & Hfds).
        eexists o, (_ ++ evs). rewrite advance_advance. split; [done|].
        rewrite closed_fds_app. by apply Hrev.
      * destruct (IH (advance s o1 [Close (S fd) None;
            Log DEBUG "Closed descriptor #%i" [PInt (Z.of_nat (S fd))]]))
          as (o & evs & -> & Hfds).
        eexists o, (_ ++ evs). rewrite advance_advance. split; [done|].
        rewrite closed_fds_app. by apply Hrev.
    + apply Nat.ltb_ge in Hfd. exists (os_state s), [].
      rewrite advance_nil. split; [done|].
      by replace (S fd - 2)%nat with 0%nat by lia.
Qed.

Lemma reexec_spec (s : proc OS) (path : string) (rest : list string) :
  restart_argv (sys_argv s) = path :: rest →
  ∃ s',
    reexec s = (Ok (Replaced path (path :: rest)), s')
    ∧ trace s' = trace s ++ [Log WARNING "Will restart the process now" [];
                             Execv path (path :: rest)]
    ∧ sys_argv s' = path :: rest.
Proof.
  unfold restart_argv, reexec. intros Hargv.
  unfold bind at 1, emit at 1, bind at 1, get at 1. cbn [sys_argv].
  destruct (py_in "-d" (sys_argv s)); simpl;
    unfold bind, get, set_argv, emit, ret; simpl; rewrite Hargv;
    eexists; (split; [reflexivity|]); simpl; by rewrite <- app_assoc.
Qed.

Lemma cleanup_keeps_argv (s : proc OS) :
  sys_argv (cleanup s).2 = sys_argv s.
Proof.
  destruct (cleanup_started s) eqn:Hs.
  - by rewrite (cleanup_started_noop s Hs).
  - rewrite (cleanup_fresh_eq s Hs). destruct (aj_master s).
    + destruct (gateway_destroy (os_state s)) as [o [e|]]; [done|].
      by destruct (kill_children_frame
                     (advance (entered s) o [GatewayDestroy None]))
        as (o' & evs & -> & _).
    + by destruct (kill_children_frame (entered s)) as (o' & evs & -> & _).
Qed.

(** The restart branch is entered whenever the marker is set; a process
    that is not the master first sits in [gevent.wait()]. *)
Lemma run_after_serve_forever_marker (s : proc OS) :
  restart_marker s = true →
  run_after_serve_forever s =
  restart_by_request
    (if aj_master s then s else advance s (os_state s) [GeventWait]).
Proof.
  intros Hm. unfold run_after_serve_forever, bind at 1, get at 1.
  destruct (aj_master s) eqn:Hmaster; simpl.
  - unfold bind at 1, ret at 1, bind at 1, get at 1.
    rewrite Hm. reflexivity.
  - unfold bind at 1, emit at 1, bind at 1, get at 1, advance.
    cbn [restart_marker]. rewrite Hm. reflexivity.
Qed.

(** C7, as the code has it: on restart by request the process runs
    [cleanup], then calls [os.close] on the descriptors 20, 19, ..., 3 (all
    of 3 to 20, the ceiling included), ignoring the [OSError] of a
    descriptor that is not open, drops the first ['-d'] from [sys.argv] if
    there is one, and replaces the process image with
    [os.execv(sys.argv[0], sys.argv)]. *)
Theorem restart_closes_3_to_20_and_reexecs
    (Hos : ∀ o fd e, (os_close o fd).2 = Some e → is_OSError e = true)
    (s : proc OS) (path : string) (rest : list string) :
  let s0 := if aj_master s then s else advance s (os_state s) [GeventWait] in
  let s1 := advance s0 (os_state s0) [Log WARNING "Restarting by request" []] in
  restart_marker s = true →
  (cleanup s1).1 = Ok tt →
  restart_argv (sys_argv s) = path :: rest →
  ∃ closes s',
    run_after_serve_forever s = (Ok (Replaced path (path :: rest)), s')
    ∧ trace s' = trace (cleanup s1).2 ++ closes ++
                 [Log WARNING "Will restart the process now" [];
                  Execv path (path :: rest)]
    ∧ closed_fds closes =
      [20; 19; 18; 17; 16; 15; 14; 13; 12; 11; 10; 9; 8; 7; 6; 5; 4; 3]%nat
    ∧ sys_argv s' = path :: rest.
Proof.
  intros s0 s1 Hmarker Hcleanup Hargv.
  rewrite (run_after_serve_forever_marker s Hmarker). fold s0.
  unfold restart_by_request, bind at 1, emit at 1.
  change (Proc _ _ _ _ _ _ _ _ _) with s1.
  unfold bind at 1.
  destruct (cleanup s1) as [r s2] eqn:Hc. simpl in Hcleanup. subst r.
  assert (Hargv2 : sys_argv s2 = sys_argv s).
  { pose proof (cleanup_keeps_argv s1) as Hk. rewrite Hc in Hk. simpl in Hk.
    rewrite Hk. subst s1 s0. by destruct (aj_master s). }
  unfold bind at 1.
  destruct (close_descriptors_spec Hos 20 s2) as (o & closes & -> & Hfds).
  destruct (reexec_spec (advance s2 o closes) path rest) as (s' & -> & Htr & Hav).
  { simpl. by rewrite Hargv2. }
  exists closes, s'. split; [done|]. split; [|split; [exact Hfds|exact Hav]].
  rewrite Htr. simpl. by rewrite <- app_assoc.
Qed.

End RestartFacts.

Section RestartExamples.
Import Core.

Lemma simple_close_raises_OSError (o : simple_os) fd e :
  (os_close o fd).2 = Some e → is_OSError e = true.
Proof.
  simpl. unfold simple_close.
  destruct (bool_decide (fd ∈ open_fds o)); [done|].
  simpl. by intros [= <-].
Qed.

Lemma restart_closes_3_to_20_and_reexecs_witness :
  ∃ closes s',
    run_after_serve_forever example_proc =
      (Ok (Replaced "/usr/bin/ajenti-panel" ["/usr/bin/ajenti-panel"; "-v"]), s')
    ∧ trace s' =
      trace (cleanup (advance example_proc example_os
                        [Log WARNING "Restarting by request" []])).2
      ++ closes ++
      [Log WARNING "Will restart the process now" [];
       Execv "/usr/bin/ajenti-panel" ["/usr/bin/ajenti-panel"; "-v"]]
    ∧ closed_fds closes =
      [20; 19; 18; 17; 16; 15; 14; 13; 12; 11; 10; 9; 8; 7; 6; 5; 4; 3]%nat
    ∧ sys_argv s' = ["/usr/bin/ajenti-panel"; "-v"].
Proof.
  apply (restart_closes_3_to_20_and_reexecs simple_close_raises_OSError
           example_proc "/usr/bin/ajenti-panel" ["-v"]).
  - reflexivity.
  - vm_compute. reflexivity.
  - reflexivity.
Defined.

(** The descriptors closed on restart are not "exactly 3 through 19":
    descriptor 20 is closed too. *)
Lemma restart_closes_descriptor_20 :
  ¬ (∀ fd : nat,
       fd ∈ closed_fds (trace (run_after_serve_forever example_proc).2)
       ↔ (3 ≤ fd ≤ 19)%nat).
Proof.
  intros Hclaim. destruct (Hclaim 20%nat) as [Hin _].
  assert (20 ≤ 19)%nat; [|lia].
  apply Hin. vm_compute. constructor.
Qed.

(** The descriptors on which [os.close] is called, and what is
    executed. *)
Example restart_example :
  closed_fds (trace (run_after_serve_forever example_proc).2) =
    [20; 19; 18; 17; 16; 15; 14; 13; 12; 11; 10; 9; 8; 7; 6; 5; 4; 3]%nat
  ∧ (run_after_serve_forever example_proc).1 =
    Ok (Replaced "/usr/bin/ajenti-panel" ["/usr/bin/ajenti-panel"; "-v"])
  ∧ open_fds (os_state (run_after_serve_forever example_proc).2) =
    [0; 1; 2]%nat.
Proof. by vm_compute. Qed.

(** [list.remove] drops one occurrence only. *)
Example restart_argv_twice :
  restart_argv ["ajenti-panel"; "-d"; "-v"; "-d"] = ["ajenti-panel"; "-v"; "-d"].
Proof. reflexivity. Qed.

End RestartExamples.

(** ** TLS context selection *)
Section TlsFacts.
Import Core.

Lemma eq_str_true (v : pyval) (lit : string) :
  eq_str v lit = true ↔ v = PStr lit.
Proof.
  destruct v; simpl; try (split; [discriminate|by intros [=]]).
  rewrite String.eqb_eq. split; [by intros ->|by intros [= ->]].
Qed.

(** C8: with TLS enabled and bind mode ['tcp'], the certificate chain is
    loaded (certificate and key alike) from the base certificate path when
    [fqdn_certificate] is unset, and from the FQDN certificate path when it
    is set; and a TLS context is built only when the bind mode is
    ['tcp']. *)
Theorem tls_certificate_path (cfg : config) :
  (truthy (ssl_enable cfg) = true → bind_mode cfg = PStr "tcp" →
   ∃ ctx, run_ssl_context cfg = Some ctx
          ∧ (truthy (ssl_fqdn_certificate cfg) = false →
             certfile ctx = ssl_certificate cfg
             ∧ keyfile ctx = ssl_certificate cfg)
          ∧ (truthy (ssl_fqdn_certificate cfg) = true →
             certfile ctx = ssl_fqdn_certificate cfg
             ∧ keyfile ctx = ssl_fqdn_certificate cfg))
  ∧ (∀ ctx, run_ssl_context cfg = Some ctx → bind_mode cfg = PStr "tcp").
Proof.
  split.
  - intros Henable Hmode. unfold run_ssl_context.
    rewrite Henable, Hmode. simpl. eexists. split; [reflexivity|].
    simpl. split; intros ->; auto.
  - intros ctx. unfold run_ssl_context.
    destruct (truthy (ssl_enable cfg)); [|discriminate]. simpl.
    destruct (eq_str (bind_mode cfg) "tcp") eqn:Hmode; [|discriminate].
    intros _. by apply eq_str_true.
Qed.

Lemma tls_certificate_path_witness :
  ∃ ctx, run_ssl_context example_config = Some ctx
         ∧ (truthy (ssl_fqdn_certificate example_config) = false →
            certfile ctx = PStr "/etc/ajenti/ajenti.pem"
            ∧ keyfile ctx = PStr "/etc/ajenti/ajenti.pem")
         ∧ (truthy (ssl_fqdn_certificate example_config) = true →
            certfile ctx = ssl_fqdn_certificate example_config
            ∧ keyfile ctx = ssl_fqdn_certificate example_config).
Proof.
  apply (proj1 (tls_certificate_path example_config)); reflexivity.
Defined.

(** TLS configured on a UNIX-socket listener is not honoured. *)
Example tls_ignored_on_unix_socket :
  run_ssl_context
    (Config (PStr "unix") (PBool true) (PStr "/etc/ajenti/ajenti.pem")
            (PStr "/etc/ajenti/fqdn.pem") (PBool false) (PBool false))
  = None.
Proof. reflexivity. Qed.

End TlsFacts.

(** ** Doubles: rounding, sign and range of a difference *)
Section FloatFacts.
Import Api.

Lemma digits2_pos_bounds (p : positive) :
  2 ^ (Z.pos (digits2_pos p) - 1) ≤ Z.pos p < 2 ^ Z.pos (digits2_pos p).
Proof.
  induction p as [p IH|p IH|]; cbn [digits2_pos].
  - rewrite Pos2Z.inj_succ.
    replace (Z.succ (Z.pos (digits2_pos p)) - 1)
      with (Z.succ (Z.pos (digits2_pos p) - 1)) by lia.
    rewrite !Z.pow_succ_r by lia. lia.
  - rewrite Pos2Z.inj_succ.
    replace (Z.succ (Z.pos (digits2_pos p)) - 1)
      with (Z.succ (Z.pos (digits2_pos p) - 1)) by lia.
    rewrite !Z.pow_succ_r by lia. lia.
  - simpl. lia.
Qed.

Lemma Zdigits2_le (m k : Z) : 0 ≤ m → 0 ≤ k → m < 2 ^ k → Zdigits2 m ≤ k.
Proof.
  intros Hm Hk Hlt. destruct m as [|p|p]; [done| |lia].
  cbn [Zdigits2]. pose proof (digits2_pos_bounds p) as [Hlo _].
  destruct (Z_le_gt_dec (Z.pos (digits2_pos p)) k) as [|Hgt]; [done|].
  assert (2 ^ k ≤ 2 ^ (Z.pos (digits2_pos p) - 1))
    by (apply Z.pow_le_mono_r; lia).
  lia.
Qed.

Lemma shr_1_m (x : shr_record) :
  0 ≤ shr_m x → shr_m (shr_1 x) = shr_m x / 2.
Proof.
  destruct x as [m r s]. cbn [shr_m]. intros Hm.
  destruct m as [|[p|p|]|p]; cbn [shr_1 shr_m]; try lia; try reflexivity.
  - apply Z.div_unique with 1; lia.
  - apply Z.div_unique with 0; lia.
Qed.

Lemma shr_1_bound (x : shr_record) (k : Z) :
  0 ≤ shr_m x < 2 ^ Z.max 0 k →
  0 ≤ shr_m (shr_1 x) < 2 ^ Z.max 0 (k - 1).
Proof.
  intros [Hlo Hhi]. rewrite shr_1_m by done.
  split; [apply Z.div_pos; lia|].
  destruct (Z_le_gt_dec k 0) as [Hk|Hk].
  - rewrite Z.max_l in Hhi by lia. rewrite Z.max_l by lia.
    change (2 ^ 0) with 1 in *.
    replace (shr_m x) with 0 by lia. done.
  - rewrite Z.max_r in Hhi by lia. rewrite Z.max_r by lia.
    apply Z.div_lt_upper_bound; [lia|].
    replace k with (Z.succ (k - 1)) in Hhi by lia.
    rewrite Z.pow_succ_r in Hhi by lia. lia.
Qed.

Lemma iter_shr_1_bound (p : positive) : ∀ (x : shr_record) (k : Z),
  0 ≤ shr_m x < 2 ^ Z.max 0 k →
  0 ≤ shr_m (SpecFloat.iter_pos shr_1 p x) < 2 ^ Z.max 0 (k - Z.pos p).
Proof.
  induction p as [p IH|p IH|]; intros x k Hx; cbn [SpecFloat.iter_pos].
  - replace (k - Z.pos p~1) with (k - 1 - Z.pos p - Z.pos p) by lia.
    by apply IH, IH, shr_1_bound.
  - replace (k - Z.pos p~0) with (k - Z.pos p - Z.pos p) by lia.
    by apply IH, IH.
  - by apply shr_1_bound.
Qed.

Lemma shr_record_of_loc_m (m : Z) (l : location) :
  shr_m (shr_record_of_loc m l) = m.
Proof. by destruct l as [|[]]. Qed.

(** One rounding shift: the new exponent, and what is left of the
    mantissa. *)
Lemma shr_fexp_spec (m e k : Z) (l : location) :
  0 ≤ m < 2 ^ Z.max 0 k →
  let r := shr_fexp prec emax m e l in
  r.2 = Z.max e (fexp prec emax (Zdigits2 m + e))
  ∧ 0 ≤ shr_m r.1 < 2 ^ Z.max 0 (k - (r.2 - e)).
Proof.
  intros Hm. unfold shr_fexp, shr.
  destruct (fexp prec emax (Zdigits2 m + e) - e) as [|p|p] eqn:Hn;
    cbn [fst snd].
  - split; [lia|]. rewrite shr_record_of_loc_m.
    by replace (k - (e - e)) with k by lia.
  - split; [lia|].
    replace (k - (e + Z.pos p - e)) with (k - Z.pos p) by lia.
    apply iter_shr_1_bound. by rewrite shr_record_of_loc_m.
  - split; [lia|]. rewrite shr_record_of_loc_m.
    by replace (k - (e - e)) with k by lia.
Qed.

Lemma round_nearest_even_bound (m : Z) (l : location) :
  0 ≤ m → m ≤ round_nearest_even m l ≤ m + 1.
Proof.
  intros Hm. destruct l as [|[]]; cbn [round_nearest_even]; try lia.
  destruct (Z.even m); lia.
Qed.

Lemma binary_round_aux_sign (s : bool) (m e : Z) (l : location) :
  0 ≤ m → has_sign s (binary_round_aux prec emax s m e l).
Proof.
  intros Hm. unfold binary_round_aux.
  assert (Hm' : 0 ≤ m < 2 ^ Z.max 0 (Zdigits2 m)).
  { split; [done|]. destruct m as [|p|p]; [done| |lia].
    cbn [Zdigits2]. rewrite Z.max_r by lia. apply digits2_pos_bounds. }
  pose proof (shr_fexp_spec m e _ l Hm') as [_ [H1 _]].
  destruct (shr_fexp prec emax m e l) as [mrs1 e1]. cbn [fst snd] in H1.
  set (m2 := round_nearest_even (shr_m mrs1) (loc_of_shr_record mrs1)).
  pose proof (round_nearest_even_bound (shr_m mrs1)
                (loc_of_shr_record mrs1) H1) as Hm2. fold m2 in Hm2.
  assert (Hm2' : 0 ≤ m2 < 2 ^ Z.max 0 (Zdigits2 m2)).
  { split; [lia|]. destruct m2 as [|p|p]; [done| |lia].
    cbn [Zdigits2]. rewrite Z.max_r by lia. apply digits2_pos_bounds. }
  pose proof (shr_fexp_spec m2 e1 _ loc_Exact Hm2') as [_ [H2 _]].
  destruct (shr_fexp prec emax m2 e1 loc_Exact) as [mrs2 e2].
  cbn [fst snd] in H2.
  destruct (shr_m mrs2) as [|p|p]; [done| |lia].
  by destruct (e2 <=? emax - prec).
Qed.

Lemma binary_round_aux_finite (s : bool) (m e k : Z) (l : location) :
  0 ≤ m < 2 ^ k → 0 ≤ k → k + e ≤ 1023 → e ≤ emax - prec →
  finite (binary_round_aux prec emax s m e l) = true.
Proof.
  intros Hm Hk Hke He. unfold binary_round_aux.
  assert (Hm' : 0 ≤ m < 2 ^ Z.max 0 k) by (by rewrite Z.max_r by lia).
  pose proof (Zdigits2_le m k (proj1 Hm) Hk (proj2 Hm)) as Hd.
  pose proof (shr_fexp_spec m e k l Hm') as [He1 [H1 H1']].
  destruct (shr_fexp prec emax m e l) as [mrs1 e1].
  cbn [fst snd] in He1, H1, H1'.
  set (m2 := round_nearest_even (shr_m mrs1) (loc_of_shr_record mrs1)).
  pose proof (round_nearest_even_bound (shr_m mrs1)
                (loc_of_shr_record mrs1) H1) as Hm2. fold m2 in Hm2.
  set (k1 := Z.max 0 (k - (e1 - e))) in *.
  assert (Hk1 : 0 ≤ k1) by lia.
  assert (He1' : e1 ≤ emax - prec ∧ k1 + e1 ≤ 1023).
  { unfold fexp, emin, prec, emax in *. lia. }
  assert (Hm2' : 0 ≤ m2 < 2 ^ Z.max 0 (k1 + 1)).
  { rewrite Z.max_r by lia. rewrite Z.pow_add_r by lia.
    change (2 ^ 1) with 2. lia. }
  pose proof (Zdigits2_le m2 (k1 + 1) ltac:(lia) ltac:(lia)) as Hd2.
  rewrite Z.max_r in Hm2' by lia. specialize (Hd2 (proj2 Hm2')).
  rewrite <- (Z.max_r 0 (k1 + 1)) in Hm2' by lia.
  pose proof (shr_fexp_spec m2 e1 _ loc_Exact Hm2') as [He2 [H2 _]].
  destruct (shr_fexp prec emax m2 e1 loc_Exact) as [mrs2 e2].
  cbn [fst snd] in He2, H2.
  destruct (shr_m mrs2) as [|p|p]; [done| |lia].
  assert (e2 ≤ emax - prec) by (unfold fexp, emin, prec, emax in *; lia).
  by replace (e2 <=? emax - prec) with true by lia.
Qed.


Lemma shl_align_spec (m : positive) (e e' : Z) :
  (shl_align m e e').2 = Z.min e e'
  ∧ Z.pos (shl_align m e e').1 = Z.pos m * 2 ^ (e - Z.min e e').
Proof.
  unfold shl_align. destruct (e' - e) as [|d|d] eqn:Hd; cbn [fst snd].
  - rewrite Z.min_l by lia. rewrite Z.sub_diag. lia.
  - rewrite Z.min_l by lia. rewrite Z.sub_diag. lia.
  - rewrite Z.min_r by lia. split; [done|].
    replace (e - e') with (Z.pos d) by lia.
    pose proof (shift_pos_correct d m) as Hs.
    unfold shift_pos in Hs. rewrite Hs.
    change (Zpower_pos 2 d) with (2 ^ Z.pos d). lia.
Qed.

Lemma binary_round_sign (s : bool) (m : positive) (e : Z) :
  has_sign s (binary_round prec emax s m e).
Proof.
  unfold binary_round. destruct (shl_align m e _) as [mz ez].
  by apply binary_round_aux_sign.
Qed.

Lemma binary_round_finite (s : bool) (m : positive) (e k : Z) :
  Z.pos m < 2 ^ k → 0 ≤ k → k + e ≤ 1023 → e ≤ emax - prec →
  finite (binary_round prec emax s m e) = true.
Proof.
  intros Hm Hk Hke He. unfold binary_round.
  pose proof (shl_align_spec m e
                (fexp prec emax (Z.pos (digits2_pos m) + e))) as [Hez Hmz].
  destruct (shl_align m e _) as [mz ez]. cbn [fst snd] in Hez, Hmz.
  apply (binary_round_aux_finite s (Z.pos mz) ez (k + (e - ez))); try lia.
  split; [lia|]. rewrite Hmz, Z.pow_add_r by lia. subst ez.
  apply Z.mul_lt_mono_pos_r; [apply Z.pow_pos_nonneg; lia|done].
Qed.

Lemma binary_normalize_sign (z e : Z) :
  (z ≤ 0 → not_positive (binary_normalize prec emax z e false))
  ∧ (0 ≤ z → not_negative (binary_normalize prec emax z e false)).
Proof.
  destruct z as [|m|m]; cbn [binary_normalize].
  - done.
  - split; [lia|]. intros _.
    pose proof (binary_round_sign false m e) as Hs.
    by destruct (binary_round prec emax false m e).
  - split; [|lia]. intros _.
    pose proof (binary_round_sign true m e) as Hs.
    by destruct (binary_round prec emax true m e).
Qed.

Lemma binary_normalize_finite (z e k : Z) :
  Z.abs z < 2 ^ k → 0 ≤ k → k + e ≤ 1023 → e ≤ emax - prec →
  finite (binary_normalize prec emax z e false) = true.
Proof.
  intros Hz Hk Hke He. destruct z as [|m|m]; cbn [binary_normalize];
    [done| |]; by apply (binary_round_finite _ m e k).
Qed.

Lemma Qpower_2_pos (e : Z) : (0 < 2 ^ e)%Q.
Proof. by apply Qpower_0_lt. Qed.

Lemma SF2Q_sign (s : bool) (m : positive) (e : Z) :
  if s then (SF2Q (S754_finite s m e) < 0)%Q
  else (0 < SF2Q (S754_finite s m e))%Q.
Proof.
  pose proof (Qpower_2_pos e) as Hp. cbn [SF2Q].
  destruct s; cbn [cond_Zopp].
  - assert (Hlt : (inject_Z (Z.neg m) * 2 ^ e < 0 * 2 ^ e)%Q)
      by (apply Qmult_lt_compat_r; [done|]; unfold Qlt; simpl; lia).
    by rewrite Qmult_0_l in Hlt.
  - assert (Hlt : (0 * 2 ^ e < inject_Z (Z.pos m) * 2 ^ e)%Q)
      by (apply Qmult_lt_compat_r; [done|]; unfold Qlt; simpl; lia).
    by rewrite Qmult_0_l in Hlt.
Qed.

Lemma cond_Zopp_mul (s : bool) (a b : Z) :
  cond_Zopp s (a * b) = cond_Zopp s a * b.
Proof. destruct s; cbn [cond_Zopp]; lia. Qed.

(** The mantissa aligned to a smaller exponent denotes the same number. *)
Lemma aligned_value (s : bool) (m : positive) (e ez : Z) :
  ez ≤ e →
  (inject_Z (cond_Zopp s (Z.pos (shl_align m e ez).1)) * 2 ^ ez
   == SF2Q (S754_finite s m e))%Q.
Proof.
  intros Hez. pose proof (shl_align_spec m e ez) as [_ Hm].
  rewrite Hm, Z.min_r by lia. cbn [SF2Q].
  rewrite cond_Zopp_mul, inject_Z_mult.
  rewrite (Zpower_Qpower 2 (e - ez)) by lia.
  rewrite <- Qmult_assoc.
  rewrite <- Qpower_plus by done.
  by replace (e - ez + ez) with e by lia.
Qed.

Lemma aligned_order (sx sy : bool) (mx my : positive) (ex ey : Z) :
  let ez := Z.min ex ey in
  let X := cond_Zopp sx (Z.pos (shl_align mx ex ez).1) in
  let Y := cond_Zopp sy (Z.pos (shl_align my ey ez).1) in
  (SF2Q (S754_finite sx mx ex) <= SF2Q (S754_finite sy my ey))%Q ↔ X ≤ Y.
Proof.
  intros ez X Y.
  rewrite <- (aligned_value sx mx ex ez), <- (aligned_value sy my ey ez)
    by lia.
  fold X Y. rewrite (Qmult_le_r _ _ _ (Qpower_2_pos ez)).
  by rewrite <- Zle_Qle.
Qed.

(** The sign of a difference of doubles follows the order of its
    operands. *)
Lemma SFsub_sign (a b : spec_float) :
  finite a = true → finite b = true →
  ((SF2Q a <= SF2Q b)%Q → not_positive (SFsub prec emax a b))
  ∧ ((SF2Q b <= SF2Q a)%Q → not_negative (SFsub prec emax a b)).
Proof.
  intros Ha Hb.
  destruct a as [sx|sx| |sx mx ex]; try discriminate Ha;
  destruct b as [sy|sy| |sy my ey]; try discriminate Hb.
  - by destruct sx, sy.
  - pose proof (SF2Q_sign sy my ey) as Hs. cbn [SFsub].
    destruct sy; cbn [not_positive not_negative negb SF2Q] in *;
      split; intros Hle; try done; lra.
  - pose proof (SF2Q_sign sx mx ex) as Hs. cbn [SFsub].
    destruct sx; cbn [not_positive not_negative negb SF2Q] in *;
      split; intros Hle; try done; lra.
  - cbn [SFsub]. cbv zeta.
    pose proof (aligned_order sx sy mx my ex ey) as Hxy.
    pose proof (aligned_order sy sx my mx ey ex) as Hyx.
    cbv zeta in Hxy, Hyx. rewrite (Z.min_comm ey ex) in Hyx.
    set (X := cond_Zopp sx _) in *. set (Y := cond_Zopp sy _) in *.
    destruct (binary_normalize_sign (X - Y) (Z.min ex ey)) as [Hneg Hpos].
    split; intros Hle.
    + apply Hneg. apply Hxy in Hle. lia.
    + apply Hpos. apply Hyx in Hle. lia.
Qed.

Lemma aligned_bound (s : bool) (m : positive) (e ez : Z) :
  ez ≤ e → Z.pos (digits2_pos m) + e ≤ 1022 →
  Z.abs (cond_Zopp s (Z.pos (shl_align m e ez).1)) < 2 ^ (1022 - ez).
Proof.
  intros Hez Hd. pose proof (shl_align_spec m e ez) as [_ Hm].
  rewrite Z.min_r in Hm by lia.
  replace (Z.abs _) with (Z.pos (shl_align m e ez).1)
    by (destruct s; cbn [cond_Zopp]; lia).
  rewrite Hm. pose proof (digits2_pos_bounds m) as [_ Hhi].
  apply Z.lt_le_trans with (2 ^ Z.pos (digits2_pos m) * 2 ^ (e - ez)).
  - apply Z.mul_lt_mono_pos_r; [apply Z.pow_pos_nonneg; lia|done].
  - rewrite <- Z.pow_add_r by lia. apply Z.pow_le_mono_r; lia.
Qed.

(** The difference of two doubles below [2^1022] in magnitude is
    finite. *)
Lemma SFsub_finite (a b : spec_float) :
  moderate a = true → moderate b = true →
  finite (SFsub prec emax a b) = true.
Proof.
  intros Ha Hb.
  destruct a as [sx|sx| |sx mx ex]; try discriminate Ha;
  destruct b as [sy|sy| |sy my ey]; try discriminate Hb.
  - by destruct sx, sy.
  - done.
  - done.
  - cbn [SFsub]. cbv zeta. cbn [moderate] in Ha, Hb.
    apply andb_true_iff in Ha as [Hdx Hex], Hb as [Hdy Hey].
    apply Z.leb_le in Hdx, Hex, Hdy, Hey.
    pose proof (aligned_bound sx mx ex (Z.min ex ey) ltac:(lia) Hdx) as HX.
    pose proof (aligned_bound sy my ey (Z.min ex ey) ltac:(lia) Hdy) as HY.
    set (X := cond_Zopp sx _) in *. set (Y := cond_Zopp sy _) in *.
    apply (binary_normalize_finite _ _ (1023 - Z.min ex ey));
      unfold prec, emax in *; try lia.
    replace (1023 - Z.min ex ey) with (Z.succ (1022 - Z.min ex ey)) by lia.
    rewrite Z.pow_succ_r by lia. lia.
Qed.

Lemma trunc_sign (f : spec_float) :
  (not_positive f → trunc f ≤ 0) ∧ (not_negative f → 0 ≤ trunc f).
Proof.
  destruct f as [s|s| |s m e]; cbn [trunc not_positive not_negative];
    try (split; intros; lia).
  assert (0 ≤ Z.shiftl (Z.pos m) e) by (apply Z.shiftl_nonneg; lia).
  split; intros ->; cbn [cond_Zopp]; lia.
Qed.

(** A mantissa of at most 53 bits with an exponent in range is left as
    it is by rounding. *)
Lemma shr_fexp_exact (p : positive) (e : Z) :
  Z.pos p < 2 ^ prec → emin prec emax ≤ e →
  shr_fexp prec emax (Z.pos p) e loc_Exact
  = ({| shr_m := Z.pos p; shr_r := false; shr_s := false |}, e).
Proof.
  intros Hp He.
  pose proof (Zdigits2_le (Z.pos p) prec ltac:(lia) ltac:(done) Hp) as Hd.
  unfold shr_fexp, shr.
  destruct (fexp prec emax (Zdigits2 (Z.pos p) + e) - e) as [|q|q] eqn:Hn;
    [done| |done].
  unfold fexp, emin, prec, emax in *. lia.
Qed.

Lemma binary_round_aux_exact (s : bool) (p : positive) (e : Z) :
  Z.pos p < 2 ^ prec → emin prec emax ≤ e ≤ emax - prec →
  binary_round_aux prec emax s (Z.pos p) e loc_Exact = S754_finite s p e.
Proof.
  intros Hp [Hlo Hhi]. unfold binary_round_aux.
  rewrite (shr_fexp_exact p e Hp Hlo).
  cbn [shr_m loc_of_shr_record shr_r shr_s round_nearest_even].
  rewrite (shr_fexp_exact p e Hp Hlo). cbn [shr_m].
  by replace (e <=? emax - prec) with true by lia.
Qed.

(** An int of at most 53 bits is a double: its conversion is exact. *)
Lemma float_of_int_exact (z : Z) :
  Z.abs z < 2 ^ prec →
  ∃ f, float_of_int z = Ok f
       ∧ moderate f = true
       ∧ (SF2Q f == inject_Z z)%Q.
Proof.
  intros Hz. unfold float_of_int.
  assert (Hround : ∀ (s : bool) (m : positive),
    Z.pos m < 2 ^ prec →
    ∃ mz ez,
      binary_round prec emax s m 0 = S754_finite s mz ez
      ∧ moderate (S754_finite s mz ez) = true
      ∧ (SF2Q (S754_finite s mz ez)
         == inject_Z (cond_Zopp s (Z.pos m)))%Q).
  { intros s m Hm. unfold binary_round.
    pose proof (Zdigits2_le (Z.pos m) prec ltac:(lia) ltac:(done) Hm) as Hd.
    cbn [Zdigits2] in Hd.
    pose proof (digits2_pos_bounds m) as [_ Hhi].
    set (target := fexp prec emax (Z.pos (digits2_pos m) + 0)).
    assert (Htarget : target = Z.pos (digits2_pos m) - prec)
      by (unfold target, fexp, emin, prec, emax in *; lia).
    pose proof (shl_align_spec m 0 target) as [Hez Hmz].
    pose proof (aligned_value s m 0 target ltac:(unfold prec in *; lia))
      as Hvalue.
    destruct (shl_align m 0 target) as [mz ez]. cbn [fst snd] in *.
    rewrite Z.min_r in Hez, Hmz by (unfold prec in *; lia). subst ez.
    assert (Hmz' : Z.pos mz < 2 ^ prec).
    { rewrite Hmz, Htarget.
      replace (2 ^ prec)
        with (2 ^ Z.pos (digits2_pos m) * 2 ^ (0 - (Z.pos (digits2_pos m) - prec)))
        by (rewrite <- Z.pow_add_r by (unfold prec in *; lia);
            f_equal; lia).
      apply Z.mul_lt_mono_pos_r; [apply Z.pow_pos_nonneg|]; unfold prec in *;
        lia. }
    exists mz, target. split; [|split].
    - apply binary_round_aux_exact; [done|].
      unfold emin, prec, emax in *. lia.
    - pose proof (Zdigits2_le (Z.pos mz) prec ltac:(lia) ltac:(done) Hmz')
        as Hdz.
      cbn [Zdigits2] in Hdz. cbn [moderate].
      apply andb_true_iff. split; apply Z.leb_le; unfold prec, emax in *; lia.
    - cbn [SF2Q]. rewrite Hvalue. cbn [SF2Q].
      change (2 ^ 0)%Q with 1%Q. by rewrite Qmult_1_r. }
  destruct z as [|m|m]; cbn [binary_normalize].
  - by exists (S754_zero false).
  - destruct (Hround false m Hz) as (mz & ez & -> & Hmod & Hval).
    by exists (S754_finite false mz ez).
  - destruct (Hround true m Hz) as (mz & ez & -> & Hmod & Hval).
    by exists (S754_finite true mz ez).
Qed.

End FloatFacts.

(** ** The session-time endpoint *)
Section SessionTimeFacts.
Import Api.
Context {services : Services}.

(** The endpoint without auto-login, in closed form. *)
Lemma handle_api_sessiontime_eq (w : world) :
  dev_autologin w = false →
  let e := gevent_sleep (1 # 100) (update_sessionlist (shared w)) in
  handle_api_sessiontime w =
  (remaining_time (session_timestamp (sessions e) (session_key w))
                  (effective_session_max_time (session_max_time w))
                  (float_of_Q (clock e)),
   extend w e [UpdateSessionlist; Sleep (1 # 100)]).
Proof.
  intros Hauto. unfold handle_api_sessiontime, bind at 1, get at 1.
  rewrite Hauto.
  unfold sleep, bind, get, emit, update_shared, ret, eval, extend,
    remaining_time, session_timestamp, effective_session_max_time; simpl.
  rewrite <- app_assoc; simpl.
  destruct (py_add _ _) as [deadline|err]; [|done].
  by destruct (py_sub _ _) as [remaining|err].
Qed.

(** Once the deadline is a double, what remains is the integer part of
    one subtraction of doubles. *)
Lemma remaining_time_float (timestamp max_time total : number)
    (deadline now : spec_float) :
  py_add timestamp max_time = Ok total →
  to_float total = Ok deadline →
  remaining_time timestamp max_time now
  = int_of_number (PyFloat (SFsub prec emax deadline now)).
Proof.
  intros Hadd Hto. unfold remaining_time. rewrite Hadd.
  destruct total as [z|f]; cbn [py_sub to_float] in *.
  - by rewrite Hto.
  - by injection Hto as ->.
Qed.

Lemma int_of_number_finite (f : spec_float) :
  finite f = true → int_of_number (PyFloat f) = Ok (trunc f).
Proof. by destruct f. Qed.

Lemma int_of_number_not_positive (f : spec_float) :
  not_positive f →
  (∃ z, int_of_number (PyFloat f) = Ok z ∧ z ≤ 0)
  ∨ int_of_number (PyFloat f) = Raise (OtherError "OverflowError").
Proof.
  intros Hf. destruct f as [s|s| |s m e]; [left|by right|done|left].
  - by exists 0.
  - exists (trunc (S754_finite s m e)). split; [done|].
    by apply trunc_sign.
Qed.

Lemma int_of_number_not_negative (f : spec_float) :
  not_negative f →
  (∃ z, int_of_number (PyFloat f) = Ok z ∧ 0 ≤ z)
  ∨ int_of_number (PyFloat f) = Raise (OtherError "OverflowError").
Proof.
  intros Hf. destruct f as [s|s| |s m e]; [left|by right|done|left].
  - by exists 0.
  - exists (trunc (S754_finite s m e)). split; [done|].
    by apply trunc_sign.
Qed.

(** C5: with auto-login the endpoint answers the fixed value 86400 and
    leaves the world, the session registry included, as it was.  Without
    it the answer is [int(timestamp + session_max_time - now)] as Python
    computes it, on ints and doubles: [session_max_time] is 3600 when
    none is configured (or a zero is) and the configured number
    otherwise, [timestamp] is the one registered for the session key
    after the refresh (0 when there is none), and [now] is the clock at
    that moment, as a double.  When [timestamp + session_max_time], as a
    double, is not after [now] and both are below [2^1022] in magnitude,
    the endpoint returns an answer and that answer is not positive; so in
    particular when timestamp and window are ints whose sum (of at most
    53 bits) is not after [now]. *)
Theorem session_time_remaining (w : world) :
  (dev_autologin w = true → handle_api_sessiontime w = (Ok 86400, w))
  ∧ (dev_autologin w = false →
     let e := gevent_sleep (1 # 100) (update_sessionlist (shared w)) in
     let timestamp := session_timestamp (sessions e) (session_key w) in
     let max_time := effective_session_max_time (session_max_time w) in
     let now := float_of_Q (clock e) in
     handle_api_sessiontime w =
       (remaining_time timestamp max_time now,
        extend w e [UpdateSessionlist; Sleep (1 # 100)])
     ∧ (∀ s, sessions e !! session_key w = Some s →
             timestamp = Api.timestamp s)
     ∧ (sessions e !! session_key w = None → timestamp = PyInt 0)
     ∧ (session_max_time w = None → max_time = PyInt 3600)
     ∧ (∀ x, session_max_time w = Some x →
             max_time = if truthy_number x then x else PyInt 3600)
     ∧ (∀ total deadline,
          py_add timestamp max_time = Ok total →
          to_float total = Ok deadline →
          moderate deadline = true →
          moderate now = true →
          (SF2Q deadline <= SF2Q now)%Q →
          ∃ remaining,
            handle_api_sessiontime w =
              (Ok remaining, extend w e [UpdateSessionlist; Sleep (1 # 100)])
            ∧ remaining ≤ 0)
     ∧ (∀ t m,
          timestamp = PyInt t →
          max_time = PyInt m →
          Z.abs (t + m) < 2 ^ 53 →
          moderate now = true →
          (inject_Z (t + m) <= SF2Q now)%Q →
          ∃ remaining,
            handle_api_sessiontime w =
              (Ok remaining, extend w e [UpdateSessionlist; Sleep (1 # 100)])
            ∧ remaining ≤ 0)).
Proof.
  split.
  - intros Hauto. unfold handle_api_sessiontime, bind, get. by rewrite Hauto.
  - intros Hauto e timestamp max_time now.
    assert (Hpast : ∀ total deadline,
      py_add timestamp max_time = Ok total →
      to_float total = Ok deadline →
      moderate deadline = true →
      moderate now = true →
      (SF2Q deadline <= SF2Q now)%Q →
      ∃ remaining,
        handle_api_sessiontime w =
          (Ok remaining, extend w e [UpdateSessionlist; Sleep (1 # 100)])
        ∧ remaining ≤ 0).
    { intros total deadline Hadd Hto Hdeadline Hnow Hpast.
      rewrite (handle_api_sessiontime_eq w Hauto).
      fold e timestamp max_time now.
      rewrite (remaining_time_float _ _ _ _ now Hadd Hto).
      pose proof (SFsub_finite deadline now Hdeadline Hnow) as Hfin.
      rewrite (int_of_number_finite _ Hfin).
      exists (trunc (SFsub prec emax deadline now)). split; [done|].
      apply trunc_sign.
      apply SFsub_sign; [by destruct deadline|by destruct now|done]. }
    split; [exact (handle_api_sessiontime_eq w Hauto)|].
    split; [|split; [|split; [|split; [|split; [exact Hpast|]]]]].
    + intros s Hs. unfold timestamp, session_timestamp. by rewrite Hs.
    + intros Hs. unfold timestamp, session_timestamp. by rewrite Hs.
    + unfold max_time. by intros ->.
    + unfold max_time. intros x ->. unfold effective_session_max_time.
      simpl. by destruct (truthy_number x).
    + intros t m Ht Hm Hsmall Hnow Hle.
      destruct (float_of_int_exact (t + m) Hsmall)
        as (deadline & Hto & Hdeadline & Hvalue).
      apply (Hpast (PyInt (t + m)) deadline);
        [by rewrite Ht, Hm|done|done|done|by rewrite Hvalue].
Qed.

End SessionTimeFacts.

Section SessionTimeExamples.
Import Api.

Lemma session_time_remaining_witness :
  handle_api_sessiontime
    (World (Env 1000 ∅) true None "s3cr3t" "k1" [])
  = (Ok 86400, World (Env 1000 ∅) true None "s3cr3t" "k1" [])
  ∧ ∃ remaining,
      handle_api_sessiontime (services := still_services) expired_world
      = (Ok remaining,
         extend expired_world (shared expired_world)
           [UpdateSessionlist; Sleep (1 # 100)])
      ∧ remaining ≤ 0.
Proof.
  split.
  - exact (proj1 (session_time_remaining
                    (World (Env 1000 ∅) true None "s3cr3t" "k1" []))
             eq_refl).
  - destruct (proj2 (session_time_remaining (services := still_services)
                       expired_world) eq_refl)
      as (_ & _ & _ & _ & _ & _ & Hpast).
    apply (Hpast 100 600); [reflexivity|reflexivity| |reflexivity|];
      vm_compute; first [reflexivity|discriminate].
Defined.

(** A session refreshed at time 1000 and read 10 ms later, with the
    default idle window: 3599 whole seconds remain. *)
Example session_time_fresh :
  (handle_api_sessiontime example_world).1 = Ok 3599.
Proof. by vm_compute. Qed.

(** A session last seen at time 100 whose refresh has not arrived, read at
    time 10000: the idle window of 600 s ended long ago. *)
Example session_time_expired :
  (handle_api_sessiontime (services := still_services) expired_world).1
  = Ok (-9300).
Proof. by vm_compute. Qed.

(** A configured window of 0 counts as unconfigured. *)
Example session_time_zero_window :
  (handle_api_sessiontime (services := no_mail_services)
     (World (Env 1000 {[ "k1" := Session (PyInt 1000) ]}) false
            (Some (PyInt 0)) "s3cr3t" "k1" [])).1 = Ok 3599.
Proof. by vm_compute. Qed.

(** The arithmetic is that of doubles.  With timestamp 1000.3 and a
    window of 0.7 read at time 996, the sum rounds to 1001.0 and the
    answer is 5, although the decimal values add up to just under 1001.
    With timestamp 1700000000.0 and a window of 599.9999999 read in the
    same instant, the sum rounds to 1700000600.0 and the answer is 600,
    more than the whole seconds of the window. *)
Example session_time_rounds_as_doubles :
  (handle_api_sessiontime (services := still_services)
     (World (Env 996
               {[ "k1" := Session (PyFloat (float_of_Q (10003 # 10))) ]})
            false (Some (PyFloat (float_of_Q (7 # 10)))) "s3cr3t" "k1" [])).1
  = Ok 5
  ∧ (handle_api_sessiontime (services := still_services) float_world).1
    = Ok 600.
Proof. by vm_compute. Qed.

(** An infinite window is not a number of seconds: [int()] refuses the
    difference. *)
Example session_time_infinite_window :
  (handle_api_sessiontime (services := still_services)
     (World (Env 1000 {[ "k1" := Session (PyInt 1000) ]}) false
            (Some (PyFloat (S754_infinity false))) "s3cr3t" "k1" [])).1
  = Raise (OtherError "OverflowError").
Proof. by vm_compute. Qed.

End SessionTimeExamples.

(** ** Strings *)
Section StringFacts.

Lemma append_cons (c : ascii) (a b : string) :
  String c a +:+ b = String c (a +:+ b).
Proof. reflexivity. Qed.

Lemma append_nil_r (s : string) : s +:+ "" = s.
Proof. induction s as [|c s IH]; [done|]. by rewrite append_cons, IH. Qed.

Lemma append_assoc (a b c : string) : (a +:+ b) +:+ c = a +:+ b +:+ c.
Proof. induction a as [|x a IH]; [done|]. by rewrite !append_cons, IH. Qed.

End StringFacts.

(** ** The authentication endpoint *)
Section AuthFacts.
Import Api Itsdangerous.
Context `{Services}.

Lemma occurs_in_middle (a x b : string) : occurs_in x (a +:+ x +:+ b).
Proof. by exists a, b. Qed.

Lemma occurs_in_end (a x : string) : occurs_in x (a +:+ x).
Proof. exists a, "". by rewrite append_nil_r. Qed.

(** C2: a [sudo] request whose elevation password check succeeds
    terminates the current worker, then prepares the session redirect for
    the fixed identity ['root'] (whatever user name was supplied, and with
    no auth info carried over), and answers
    [{success: true, username: 'root'}]; nothing else happens. *)
Theorem sudo_elevation_swaps_to_root (http : http_context) (w : world)
    (ok : pyval) :
  let username := dict_get (body http) "username" in
  let password := dict_get (body http) "password" in
  body http !! "mode" = Some (PStr "sudo") →
  check_sudo_password username password = Ok ok →
  truthy ok = true →
  handle_api_auth http w =
  (Ok [("success", PBool true); ("username", PStr "root")],
   extend w (shared w)
     [CheckSudoPassword username password;
      WorkerTerminate;
      PrepareSessionRedirect (PStr "root") PNone]).
Proof.
  intros username password Hmode Hcheck Hok.
  unfold handle_api_auth, getitem. rewrite Hmode.
  unfold bind at 1, ret at 1. cbn [eq_str String.eqb Ascii.eqb Bool.eqb].
  fold username password.
  unfold try_except, bind, emit, ret, extend. simpl.
  rewrite Hcheck, Hok. simpl. by rewrite <- !app_assoc.
Qed.

(** C3: a [normal] request whose credential check fails logs one warning
    that contains the attempted user name and the source address, then
    sleeps 3 seconds, then answers [{success: false, error: null}]; no
    session redirect is prepared. *)
Theorem failed_login_is_logged_and_delayed (http : http_context) (w : world) :
  let username := dict_get (body http) "username" in
  let password := dict_get (body http) "password" in
  let ip := dict_get (environ http) "REMOTE_ADDR" in
  body http !! "mode" = Some (PStr "normal") →
  truthy (check_password username password) = false →
  ∃ msg,
    handle_api_auth http w =
    (Ok [("success", PBool false); ("error", PNone)],
     extend w (gevent_sleep 3 (shared w))
       [CheckPassword username password; LogWarning msg; Sleep 3])
    ∧ occurs_in (py_str username) msg
    ∧ occurs_in (py_str ip) msg.
Proof.
  intros username password ip Hmode Hcheck.
  exists ("Failed login from " +:+ py_str username +:+ " at IP : " +:+ py_str ip).
  split; [|split].
  - unfold handle_api_auth, getitem. rewrite Hmode.
    unfold bind at 1, ret at 1. cbn [eq_str String.eqb Ascii.eqb Bool.eqb].
    fold username password ip.
    unfold bind at 1, emit at 1. rewrite Hcheck.
    unfold sleep, bind, emit, update_shared, ret, extend. simpl.
    by rewrite <- !app_assoc.
  - apply occurs_in_middle.
  - rewrite <- !append_assoc. apply occurs_in_end.
Qed.

(** C9: a request whose mode is neither ['normal'] nor ['sudo'] is
    answered [{success: false, error: 'Invalid mode'}] with the world
    untouched: no credential check, no log line, no sleep, no worker or
    session action. *)
Theorem invalid_mode_is_rejected_at_once (http : http_context) (w : world)
    (mode : pyval) :
  body http !! "mode" = Some mode →
  mode ≠ PStr "normal" →
  mode ≠ PStr "sudo" →
  handle_api_auth http w =
  (Ok [("success", PBool false); ("error", PStr "Invalid mode")], w).
Proof.
  intros Hmode Hnormal Hsudo.
  assert (Hn : eq_str mode "normal" = false).
  { destruct (eq_str mode "normal") eqn:E; [|done].
    exfalso. apply Hnormal. destruct mode; try discriminate E.
    simpl in E. apply String.eqb_eq in E. by subst. }
  assert (Hs : eq_str mode "sudo" = false).
  { destruct (eq_str mode "sudo") eqn:E; [|done].
    exfalso. apply Hsudo. destruct mode; try discriminate E.
    simpl in E. apply String.eqb_eq in E. by subst. }
  unfold handle_api_auth, getitem. rewrite Hmode.
  unfold bind at 1, ret at 1. by rewrite Hn, Hs.
Qed.

End AuthFacts.

Section AuthExamples.
Import Api Itsdangerous.

Lemma sudo_elevation_swaps_to_root_witness :
  handle_api_auth sudo_request example_world =
  (Ok [("success", PBool true); ("username", PStr "root")],
   extend example_world (shared example_world)
     [CheckSudoPassword (PStr "alice") (PStr "wonderland");
      WorkerTerminate;
      PrepareSessionRedirect (PStr "root") PNone]).
Proof.
  apply (sudo_elevation_swaps_to_root sudo_request example_world (PBool true));
    reflexivity.
Defined.

Lemma failed_login_is_logged_and_delayed_witness :
  ∃ msg,
    handle_api_auth failed_login_request example_world =
    (Ok [("success", PBool false); ("error", PNone)],
     extend example_world (gevent_sleep 3 (shared example_world))
       [CheckPassword (PStr "bob") (PStr "guess"); LogWarning msg; Sleep 3])
    ∧ occurs_in "bob" msg
    ∧ occurs_in "10.0.0.5" msg.
Proof.
  apply (failed_login_is_logged_and_delayed failed_login_request example_world);
    reflexivity.
Defined.

Lemma invalid_mode_is_rejected_at_once_witness :
  handle_api_auth bad_mode_request example_world =
  (Ok [("success", PBool false); ("error", PStr "Invalid mode")],
   example_world).
Proof.
  apply (invalid_mode_is_rejected_at_once bad_mode_request example_world
           (PStr "token")); [reflexivity|discriminate|discriminate].
Defined.

(** The scenario of the specification: user [bob] fails to log in from
    10.0.0.5. *)
Example failed_login_trace :
  trace (handle_api_auth failed_login_request example_world).2 =
  [CheckPassword (PStr "bob") (PStr "guess");
   LogWarning "Failed login from bob at IP : 10.0.0.5";
   Sleep 3].
Proof. by vm_compute. Qed.

(** A failed [sudo] attempt sleeps as well and reports why. *)
Example failed_sudo_reply :
  (handle_api_auth
     (request [("mode", PStr "sudo"); ("username", PStr "alice");
               ("password", PStr "")] [])
     example_world).1
  = Ok [("success", PBool false); ("error", PStr "Password required")].
Proof. by vm_compute. Qed.

(** Without a [mode] field the handler raises before it reaches any
    branch. *)
Example missing_mode_raises :
  (handle_api_auth (request [("username", PStr "bob")] []) example_world).1
  = Raise (KeyError "mode").
Proof. by vm_compute. Qed.

End AuthExamples.

(** ** Truncation to whole seconds *)
Section TruncationFacts.
Import Api.

Lemma div_le_cross (a b c d : Z) :
  0 ≤ a → 0 < b → 0 < d → a * d ≤ c * b → a / b ≤ c / d.
Proof.
  intros Ha Hb Hd Hcross.
  apply Z.div_le_lower_bound; [done|].
  pose proof (Z.mul_div_le a b Hb). nia.
Qed.

(** [int()] is monotone. *)
Lemma py_int_mono (x y : Q) : (x <= y)%Q → py_int x ≤ py_int y.
Proof.
  unfold Qle, py_int. destruct x as [a b], y as [c d]. simpl. intros Hxy.
  destruct (Z_lt_le_dec a 0) as [Ha|Ha].
  - assert (Hqa : Z.quot a (Z.pos b) = - (- a / Z.pos b)).
    { rewrite <- (Z.opp_involutive a) at 1.
      rewrite Z.quot_opp_l by lia. by rewrite Z.quot_div_nonneg by lia. }
    destruct (Z_lt_le_dec c 0) as [Hc|Hc].
    + assert (Hqc : Z.quot c (Z.pos d) = - (- c / Z.pos d)).
      { rewrite <- (Z.opp_involutive c) at 1.
        rewrite Z.quot_opp_l by lia. by rewrite Z.quot_div_nonneg by lia. }
      rewrite Hqa, Hqc.
      assert (- c / Z.pos d ≤ - a / Z.pos b); [|lia].
      apply div_le_cross; lia.
    + rewrite Hqa, (Z.quot_div_nonneg c) by lia.
      assert (0 ≤ - a / Z.pos b) by (apply Z.div_pos; lia).
      assert (0 ≤ c / Z.pos d) by (apply Z.div_pos; lia). lia.
  - assert (0 ≤ c) by nia.
    rewrite !Z.quot_div_nonneg by lia. apply div_le_cross; lia.
Qed.

Lemma py_int_Qeq (x y : Q) : (x == y)%Q → py_int x = py_int y.
Proof.
  intros Hxy. apply Z.le_antisymm; apply py_int_mono; rewrite Hxy;
    apply Qle_refl.
Qed.


End TruncationFacts.

(** ** Signed tokens *)
Section SignerFacts.
Import Itsdangerous.
Context `{SignerBackend}.





End SignerFacts.

(** ** The password-reset endpoints *)
Section ResetFacts.
Import Api Itsdangerous.

(** [handle_api_send_pw_reset], in closed form. *)
Lemma handle_api_send_pw_reset_eq `{Services} `{SignerBackend}
    (http : http_context) (w : world) :
  handle_api_send_pw_reset http w =
  match body http !! "mail" with
  | None => (Raise (KeyError "mail"), w)
  | Some mail =>
      match environ http !! "HTTP_ORIGIN" with
      | None => (Raise (KeyError "HTTP_ORIGIN"), w)
      | Some origin =>
          (Ok tt,
           extend w (shared w)
             (CheckMail mail ::
              if truthy (check_mail mail)
              then [SendPasswordReset mail (reset_link w origin mail)]
              else []))
      end
  end.
Proof.
  unfold handle_api_send_pw_reset, getitem, reset_link.
  destruct (body http !! "mail") as [mail|]; [|done].
  unfold bind at 1, ret at 1.
  destruct (environ http !! "HTTP_ORIGIN") as [origin|]; [|done].
  unfold bind at 1, ret at 1, bind at 1, emit at 1.
  destruct (truthy (check_mail mail)); unfold when, bind, get, emit, ret, extend;
    simpl; [|done].
  by rewrite <- app_assoc.
Qed.

(** C10: the value returned by the reset endpoint does not depend on
    whether the mail address belongs to a user: for any two account
    providers the same request in the same world returns the same value
    (nothing, or the same [KeyError] for a malformed request).  When no
    user matches, the handler only asks the provider: nothing is signed
    or sent; when a user matches, the only further effect is the one
    mail. *)
Theorem reset_reply_hides_account (known unknown : Services)
    `{SignerBackend} (http : http_context) (w : world) :
  (handle_api_send_pw_reset (services := known) http w).1
  = (handle_api_send_pw_reset (services := unknown) http w).1
  ∧ ∀ (provider : Services) (mail origin : pyval),
      body http !! "mail" = Some mail →
      environ http !! "HTTP_ORIGIN" = Some origin →
      (truthy (check_mail (Services := provider) mail) = false →
       handle_api_send_pw_reset (services := provider) http w =
       (Ok tt, extend w (shared w) [CheckMail mail]))
      ∧ (truthy (check_mail (Services := provider) mail) = true →
         handle_api_send_pw_reset (services := provider) http w =
         (Ok tt, extend w (shared w)
                   [CheckMail mail;
                    SendPasswordReset mail
                      (reset_link (services := provider) w origin mail)])).
Proof.
  split.
  - rewrite !handle_api_send_pw_reset_eq.
    destruct (body http !! "mail"); [|done].
    by destruct (environ http !! "HTTP_ORIGIN").
  - intros provider mail origin Hmail Horigin.
    rewrite handle_api_send_pw_reset_eq, Hmail, Horigin.
    by split; intros ->.
Qed.



End ResetFacts.

Section ResetExamples.
Import Api Itsdangerous.

Lemma reset_reply_hides_account_witness :
  (handle_api_send_pw_reset (services := toy_services) reset_request
     example_world).1
  = (handle_api_send_pw_reset (services := no_mail_services) reset_request
       example_world).1
  ∧ handle_api_send_pw_reset (services := no_mail_services) reset_request
      example_world
    = (Ok tt, extend example_world (shared example_world)
                [CheckMail (PStr "alice@example.org")])
  ∧ handle_api_send_pw_reset (services := toy_services) reset_request
      example_world
    = (Ok tt, extend example_world (shared example_world)
                [CheckMail (PStr "alice@example.org");
                 SendPasswordReset (PStr "alice@example.org")
                   (reset_link (services := toy_services) example_world
                      (PStr "https://panel.example.org")
                      (PStr "alice@example.org"))]).
Proof.
  destruct (reset_reply_hides_account toy_services no_mail_services
              reset_request example_world) as [Hsame Heffects].
  split; [exact Hsame|]. split.
  - apply (Heffects no_mail_services (PStr "alice@example.org")
             (PStr "https://panel.example.org")); reflexivity.
  - apply (Heffects toy_services (PStr "alice@example.org")
             (PStr "https://panel.example.org")); reflexivity.
Defined.




(** A serial with no separator at all makes the signer raise a plain
    [BadSignature], which the [except] clause of the handler does not
    list: it leaves the handler unwrapped. *)
Example serial_without_separator :
  (handle_api_check_pw_serial (check_request "garbage") example_world).1
  = Raise BadSignature.
Proof. by vm_compute. Qed.

(** An empty serial is answered [False]. *)
Example empty_serial :
  (handle_api_check_pw_serial (check_request "") example_world).1
  = Ok ReplyFalse.
Proof. by vm_compute. Qed.

(** The token of the example, as mailed. *)
Example example_serial_value : example_serial = "alice|alice@example.org.1000.7032".
Proof. vm_compute. reflexivity. Qed.

End ResetExamples.

(** * Further properties of [aj/core.py] *)

Section CleanupMoreFacts.
Import Core.
Context {OS : Type} `{Platform OS}.

Lemma is_killpg_is_cleanup_event (evs : list event) :
  Forall (λ e, is_killpg e = true) evs →
  Forall (λ e, is_cleanup_event e = true) evs.
Proof.
  intros Hevs. eapply Forall_impl; [exact Hevs|].
  intros e He. by destruct e.
Qed.

(** The state a first call of [cleanup] ends in: [entered], advanced by
    events of the three kinds above. *)
Lemma cleanup_fresh_frame (s : proc OS) :
  cleanup_started s = false →
  ∃ o evs,
    (cleanup s).2 = advance (entered s) o evs
    ∧ Forall (λ e, is_cleanup_event e = true) evs
    ∧ count is_gateway_destroy evs = (if aj_master s then 1 else 0)%nat.
Proof.
  intros Hs. rewrite (cleanup_fresh_eq s Hs).
  destruct (aj_master s).
  - destruct (gateway_destroy (os_state s)) as [o [e|]].
    + exists o, [GatewayDestroy (Some e)]. by repeat constructor.
    + destruct (kill_children_frame
                  (advance (entered s) o [GatewayDestroy None]))
        as (o' & evs & -> & Hevs).
      exists o', ([GatewayDestroy None] ++ evs). rewrite advance_advance.
      split; [done|]. split.
      * apply Forall_app. split; [by repeat constructor|].
        by apply is_killpg_is_cleanup_event.
      * rewrite count_app, (count_killpg_only _ evs); done.
  - destruct (kill_children_frame (entered s)) as (o' & evs & -> & Hevs).
    exists o', evs. split; [done|]. split.
    + by apply is_killpg_is_cleanup_event.
    + by rewrite (count_killpg_only _ evs).
Qed.

(** X1: the first call of [cleanup] re-arms SIGINT and SIGTERM to the
    no-op handler, and they stay so whatever the rest of the body does
    (also when the gateway's destroy hook or a signal call raises); a call
    that finds cleanup already started leaves the handlers alone. *)
Theorem cleanup_disarms_signals (s : proc OS) :
  on_sigint (cleanup s).2 = (if cleanup_started s then on_sigint s else HNoop)
  ∧ on_sigterm (cleanup s).2
    = (if cleanup_started s then on_sigterm s else HNoop).
Proof.
  destruct (cleanup_started s) eqn:Hs.
  - by rewrite (cleanup_started_noop s Hs).
  - by destruct (cleanup_fresh_frame s Hs) as (o & evs & -> & _).
Qed.

(** X2: the gateway's destroy hook is called exactly once by a first
    [cleanup] in the master, and never in a worker process nor by a later
    call. *)
Theorem gateway_destroyed_only_by_master (s : proc OS) :
  ∃ added,
    trace (cleanup s).2 = trace s ++ added
    ∧ count is_gateway_destroy added
      = (if negb (cleanup_started s) && aj_master s then 1 else 0)%nat.
Proof.
  destruct (cleanup_started s) eqn:Hs.
  - rewrite (cleanup_started_noop s Hs). exists []. simpl.
    by rewrite app_nil_r.
  - destruct (cleanup_fresh_frame s Hs) as (o & evs & -> & _ & Hcount).
    exists ([Log INFO "Process %s exiting normally" [PInt (getpid s)]] ++ evs).
    split.
    + unfold advance, entered. simpl. by rewrite <- app_assoc.
    + rewrite count_app, Hcount. simpl. by destruct (aj_master s).
Qed.

(** [cleanup] ends normally when the destroy hook does not raise and
    signalling fails only with [OSError]. *)
Lemma cleanup_ok
    (Hkill : ∀ o pg sg e, (os_killpg o pg sg).2 = Some e → is_OSError e = true)
    (Hdestroy : ∀ o, (gateway_destroy o).2 = None)
    (s : proc OS) :
  (cleanup s).1 = Ok tt.
Proof.
  destruct (cleanup_started s) eqn:Hs.
  - by rewrite (cleanup_started_noop s Hs).
  - rewrite (cleanup_fresh_eq s Hs).
    assert (Hk : ∀ s' : proc OS, (kill_children s').1 = Ok tt).
    { intros s'. unfold kill_children, bind, get.
      by destruct (kill_loop_blocks Hkill (ps_children (os_state s') (getpid s')) s')
        as (blocks & o & -> & _). }
    destruct (aj_master s); [|apply Hk].
    pose proof (Hdestroy (os_state s)) as Hd.
    destruct (gateway_destroy (os_state s)) as [o [e|]]; [done|apply Hk].
Qed.

(** X3: [signal_handler] never returns to its caller: it ends in
    [SystemExit] once [cleanup] has completed, and otherwise in the
    exception that [cleanup] raised.  In both cases the state is the one
    [cleanup] left. *)
Theorem signal_handler_never_returns (s : proc OS) :
  (signal_handler s).2 = (cleanup s).2
  ∧ (signal_handler s).1
    = match (cleanup s).1 with
      | Ok _ => Raise (OtherError "SystemExit")
      | Raise e => Raise e
      end
  ∧ ((∀ o pg sg e, (os_killpg o pg sg).2 = Some e → is_OSError e = true) →
     (∀ o, (gateway_destroy o).2 = None) →
     (signal_handler s).1 = Raise (OtherError "SystemExit")).
Proof.
  assert (Heq : (signal_handler s).2 = (cleanup s).2
    ∧ (signal_handler s).1
      = match (cleanup s).1 with
        | Ok _ => Raise (OtherError "SystemExit")
        | Raise e => Raise e
        end).
  { unfold signal_handler, bind, raise. by destruct (cleanup s) as [[[]|e] s']. }
  destruct Heq as [Hstate Hresult]. split; [done|]. split; [done|].
  intros Hkill Hdestroy. by rewrite Hresult, (cleanup_ok Hkill Hdestroy s).
Qed.

End CleanupMoreFacts.

Section RestartMoreFacts.
Import Core.
Context {OS : Type} `{Platform OS}.

(** X4: whatever descriptor the loop starts from and whatever the OS
    answers, [os.close] is only ever called on descriptors from 3 up to
    the start: the three standard streams are never closed. *)
Theorem close_descriptors_spares_standard_streams (fd : nat) : ∀ s : proc OS,
  ∃ o evs,
    (close_descriptors fd s).2 = advance s o evs
    ∧ ∀ n, n ∈ closed_fds evs → (3 ≤ n ≤ fd)%nat.
Proof.
  induction fd as [|fd IH]; intros s.
  - exists (os_state s), []. rewrite advance_nil. split; [done|].
    intros n Hn. by apply elem_of_nil in Hn.
  - cbn [close_descriptors]. destruct (2 <? S fd)%nat eqn:Hfd.
    + apply Nat.ltb_lt in Hfd. unfold bind at 1. rewrite close_round_eq.
      assert (Hrest : ∀ o1 evs1,
        closed_fds evs1 = [S fd] →
        ∃ o evs,
          (close_descriptors fd (advance s o1 evs1)).2 = advance s o evs
          ∧ ∀ n, n ∈ closed_fds evs → (3 ≤ n ≤ S fd)%nat).
      { intros o1 evs1 Hfds1.
        destruct (IH (advance s o1 evs1)) as (o & evs & -> & Hevs).
        exists o, (evs1 ++ evs). rewrite advance_advance. split; [done|].
        intros n. rewrite closed_fds_app, Hfds1.
        intros [->%list_elem_of_singleton | Hn%Hevs]%elem_of_app; lia. }
      destruct (os_close (os_state s) (S fd)) as [o1 [e|]].
      * destruct (is_OSError e).
        -- by apply Hrest.
        -- exists o1, [Close (S fd) (Some e)]. split; [done|].
           intros n ->%list_elem_of_singleton. lia.
      * by apply Hrest.
    + exists (os_state s), []. rewrite advance_nil. split; [done|].
      intros n Hn. by apply elem_of_nil in Hn.
Qed.

Lemma list_remove_absent (x : string) (l : list string) :
  py_in x l = false → list_remove x l = l.
Proof.
  unfold py_in. induction l as [|y l IH]; [done|]. simpl.
  rewrite (String.eqb_sym y x). destruct (String.eqb x y); [done|].
  simpl. intros Hl. by rewrite IH.
Qed.

Lemma restart_argv_eq (argv : list string) :
  restart_argv argv = list_remove "-d" argv.
Proof.
  unfold restart_argv. destruct (py_in "-d" argv) eqn:Hin; [done|].
  by rewrite list_remove_absent.
Qed.

Lemma list_remove_first (x : string) (pre post : list string) :
  x ∉ pre → list_remove x (pre ++ x :: post) = pre ++ post.
Proof.
  induction pre as [|y pre IH]; intros Hpre; simpl.
  - by rewrite String.eqb_refl.
  - apply not_elem_of_cons in Hpre as [Hy Hpre].
    destruct (String.eqb y x) eqn:E.
    + apply String.eqb_eq in E. congruence.
    + by rewrite IH.
Qed.

Lemma py_in_elem_of (x : string) (l : list string) :
  py_in x l = true ↔ x ∈ l.
Proof.
  unfold py_in. induction l as [|y l IH]; simpl.
  - split; [done|]. by intros ?%elem_of_nil.
  - rewrite orb_true_iff, IH, elem_of_cons, String.eqb_eq. tauto.
Qed.

(** X5: restart removes the first ["-d"] of the arguments and nothing
    else.  Arguments without a ["-d"] are passed on unchanged; otherwise
    the arguments before the first ["-d"] and all those after it are kept,
    in order, so that a second ["-d"] survives into the re-executed
    command line.  In particular the number of ["-d"] goes down by one and
    the other arguments are the same. *)
Theorem restart_drops_one_debug_flag (argv : list string) :
  ("-d" ∉ argv → restart_argv argv = argv)
  ∧ (∀ pre post,
       "-d" ∉ pre → argv = pre ++ "-d" :: post →
       restart_argv argv = pre ++ post)
  ∧ length (filter (λ a, a = "-d") (restart_argv argv))
    = pred (length (filter (λ a, a = "-d") argv))
  ∧ filter (λ a, a ≠ "-d") (restart_argv argv)
    = filter (λ a, a ≠ "-d") argv.
Proof.
  split; [|split].
  - intros Hd. rewrite restart_argv_eq. apply list_remove_absent.
    destruct (py_in "-d" argv) eqn:E; [|done].
    by apply py_in_elem_of in E.
  - intros pre post Hpre ->. rewrite restart_argv_eq.
    by apply list_remove_first.
  - rewrite restart_argv_eq. induction argv as [|y argv [IHd IHo]]; [done|].
    cbn [list_remove]. destruct (String.eqb y "-d") eqn:Hy.
    + apply String.eqb_eq in Hy as ->. split.
      * by rewrite filter_cons_True.
      * by rewrite (filter_cons_False (λ a, a ≠ "-d")) by (by intros ?).
    + apply String.eqb_neq in Hy. split.
      * by rewrite !filter_cons_False.
      * rewrite !(filter_cons_True (λ a, a ≠ "-d")) by done. by rewrite IHo.
Qed.

Lemma restart_argv_nil (argv : list string) :
  restart_argv argv = [] ↔ argv = [] ∨ argv = ["-d"].
Proof.
  rewrite restart_argv_eq. split.
  - destruct argv as [|y argv]; [by left|]. simpl.
    destruct (String.eqb y "-d") eqn:Hy; [|done].
    apply String.eqb_eq in Hy as ->. intros ->. by right.
  - by intros [-> | ->].
Qed.

(** X6: [os.execv(sys.argv[0], sys.argv)] needs a program name.  When
    [sys.argv] is empty, or consists of the single argument ["-d"] (which
    is removed first), [sys.argv[0]] raises [IndexError] after the log
    line and [os.execv] is not called.  In every other case [os.execv] is
    called, right after the log line, with the first remaining argument
    as the program and all the remaining arguments as its argument
    vector.  (What the operating system makes of that call is not part of
    this statement.) *)
Theorem reexec_needs_a_program_name (s : proc OS) :
  ((reexec s).1 = Raise IndexError ↔ sys_argv s = [] ∨ sys_argv s = ["-d"])
  ∧ ((reexec s).1 = Raise IndexError →
     trace (reexec s).2 =
     trace s ++ [Log WARNING "Will restart the process now" []])
  ∧ (∀ path rest,
       restart_argv (sys_argv s) = path :: rest →
       trace (reexec s).2 =
       trace s ++ [Log WARNING "Will restart the process now" [];
                   Execv path (path :: rest)]).
Proof.
  destruct (restart_argv (sys_argv s)) as [|path rest] eqn:Hargv.
  - assert (Hrun : (reexec s).1 = Raise IndexError
      ∧ trace (reexec s).2 =
        trace s ++ [Log WARNING "Will restart the process now" []]).
    { unfold restart_argv in Hargv.
      unfold reexec, when, bind, get, set_argv, emit, ret, raise. simpl.
      destruct (py_in "-d" (sys_argv s)); simpl; by rewrite Hargv. }
    destruct Hrun as [Hres Htrace]. split; [|split]; [|done|done].
    split; [intros _; by apply restart_argv_nil|done].
  - destruct (reexec_spec s path rest Hargv) as (s' & Hrun & Htrace & _).
    rewrite Hrun. simpl. split; [|split]; [|done|].
    + split; [done|]. intros Hnil%restart_argv_nil. congruence.
    + intros path' rest' [= <- <-]. exact Htrace.
Qed.

(** [cleanup] only logs, destroys the gateway and signals. *)
Lemma cleanup_event_kinds (s : proc OS) :
  ∃ added,
    trace (cleanup s).2 = trace s ++ added
    ∧ Forall (λ e, is_cleanup_event e = true) added
    ∧ sys_argv (cleanup s).2 = sys_argv s.
Proof.
  destruct (cleanup_started s) eqn:Hs.
  - rewrite (cleanup_started_noop s Hs). exists []. simpl.
    by rewrite app_nil_r.
  - destruct (cleanup_fresh_frame s Hs) as (o & evs & -> & Hevs & _).
    exists ([Log INFO "Process %s exiting normally" [PInt (getpid s)]] ++ evs).
    split; [|split; [|done]].
    + unfold advance, entered. simpl. by rewrite <- app_assoc.
    + apply Forall_app. by split; [repeat constructor|].
Qed.

(** The tail of [run] without the restart marker, in closed form. *)
Lemma run_after_serve_forever_no_marker (s : proc OS) :
  restart_marker s = false →
  run_after_serve_forever s =
  if aj_master s then
    let s1 := advance s (os_state s) [Log DEBUG "Server stopped" []] in
    (match (cleanup s1).1 with
     | Ok _ => Ok Returns
     | Raise e => Raise e
     end, (cleanup s1).2)
  else (Ok Returns, advance s (os_state s) [GeventWait]).
Proof.
  intros Hm. unfold run_after_serve_forever, bind at 1, get at 1.
  destruct (aj_master s) eqn:Hmaster.
  - unfold when at 1. cbn [negb]. unfold bind at 1, ret at 1.
    unfold bind at 1, get at 1. rewrite Hm.
    unfold bind at 1, get at 1. rewrite Hmaster.
    unfold when, bind at 1, bind at 1, emit at 1.
    change (Proc _ _ _ _ _ _ _ _ _)
      with (advance s (os_state s) [Log DEBUG "Server stopped" []]).
    cbv zeta.
    by destruct (cleanup (advance s (os_state s)
                            [Log DEBUG "Server stopped" []])) as [[[]|e] s2].
  - unfold when at 1. cbn [negb]. unfold bind at 1, emit at 1.
    unfold bind at 1, get at 1. cbn [restart_marker]. rewrite Hm.
    unfold bind at 1, get at 1. cbn [aj_master]. rewrite Hmaster.
    unfold when, bind, ret, advance. simpl. by rewrite Hm, Hmaster.
Qed.

(** X7: without the restart marker the tail of [run] never restarts: it
    closes no descriptor, executes nothing, leaves [sys.argv] alone and
    does not end with the process image replaced.  A worker process only
    waits in [gevent.wait()] and does not run [cleanup]; the master logs
    and runs [cleanup]. *)
Theorem no_marker_no_restart (s : proc OS) :
  restart_marker s = false →
  ∃ added,
    trace (run_after_serve_forever s).2 = trace s ++ added
    ∧ closed_fds added = []
    ∧ count is_execv added = 0%nat
    ∧ sys_argv (run_after_serve_forever s).2 = sys_argv s
    ∧ (∀ path argv,
         (run_after_serve_forever s).1 ≠ Ok (Replaced path argv))
    ∧ (aj_master s = false →
       run_after_serve_forever s =
       (Ok Returns, advance s (os_state s) [GeventWait]))
    ∧ (aj_master s = true →
       (run_after_serve_forever s).2 =
       (cleanup (advance s (os_state s) [Log DEBUG "Server stopped" []])).2).
Proof.
  intros Hm. rewrite (run_after_serve_forever_no_marker s Hm).
  destruct (aj_master s) eqn:Hmaster.
  - set (s1 := advance s (os_state s) [Log DEBUG "Server stopped" []]).
    destruct (cleanup_event_kinds s1) as (added & Htrace & Hkinds & Hargv).
    assert (Hnone : closed_fds added = [] ∧ count is_execv added = 0%nat).
    { clear Htrace. induction Hkinds as [|e evs He _ [IHc IHe]]; [done|].
      destruct e; try discriminate He; by split. }
    destruct Hnone as [Hclosed Hexec].
    exists ([Log DEBUG "Server stopped" []] ++ added). cbv zeta. cbn [fst snd].
    split; [rewrite Htrace; unfold s1, advance; simpl;
            by rewrite <- app_assoc|].
    split; [by rewrite closed_fds_app, Hclosed|].
    split; [by rewrite count_app, Hexec|].
    split; [done|]. split; [|done].
    intros path argv. by destruct (cleanup s1).1.
  - exists [GeventWait]. by repeat split.
Qed.

End RestartMoreFacts.

Section CoreMoreExamples.
Import Core.

Lemma signal_handler_never_returns_witness :
  (signal_handler example_proc).2 = (cleanup example_proc).2
  ∧ (signal_handler example_proc).1 = Raise (OtherError "SystemExit").
Proof.
  destruct (signal_handler_never_returns example_proc)
    as (Hstate & _ & Hexit).
  split; [exact Hstate|].
  apply Hexit; [apply simple_killpg_raises_OSError|reflexivity].
Defined.

Lemma reexec_needs_a_program_name_witness :
  (reexec (Proc false true true ["-d"] 100 HNoop HNoop example_os [])).1
  = Raise IndexError
  ∧ trace (reexec (Proc false true true ["-d"] 100 HNoop HNoop example_os [])).2
    = [Log WARNING "Will restart the process now" []]
  ∧ trace (reexec example_proc).2
    = [Log WARNING "Will restart the process now" [];
       Execv "/usr/bin/ajenti-panel" ["/usr/bin/ajenti-panel"; "-v"]].
Proof.
  destruct (reexec_needs_a_program_name
              (Proc false true true ["-d"] 100 HNoop HNoop example_os []))
    as (Hiff & Htrace & _).
  assert (Hraise :
    (reexec (Proc false true true ["-d"] 100 HNoop HNoop example_os [])).1
    = Raise IndexError) by (apply Hiff; by right).
  split; [exact Hraise|]. split; [exact (Htrace Hraise)|].
  destruct (reexec_needs_a_program_name example_proc) as (_ & _ & Hexec).
  exact (Hexec "/usr/bin/ajenti-panel" ["-v"] eq_refl).
Defined.

Lemma restart_drops_one_debug_flag_witness :
  restart_argv ["ajenti-panel"; "-v"] = ["ajenti-panel"; "-v"]
  ∧ restart_argv ["ajenti-panel"; "-d"; "-v"; "-d"]
    = ["ajenti-panel"; "-v"; "-d"].
Proof.
  split.
  - destruct (restart_drops_one_debug_flag ["ajenti-panel"; "-v"])
      as (Hkeep & _).
    apply Hkeep. rewrite !not_elem_of_cons.
    repeat split; (discriminate || apply not_elem_of_nil).
  - destruct (restart_drops_one_debug_flag
                ["ajenti-panel"; "-d"; "-v"; "-d"]) as (_ & Hdrop & _).
    apply (Hdrop ["ajenti-panel"] ["-v"; "-d"]); [|reflexivity].
    rewrite !not_elem_of_cons.
    repeat split; (discriminate || apply not_elem_of_nil).
Defined.

Lemma no_marker_no_restart_witness :
  ∃ added,
    trace (run_after_serve_forever
             (Proc false false false ["ajenti-panel"] 200
                   HSignalHandler HSignalHandler example_os [])).2
    = [] ++ added
    ∧ closed_fds added = []
    ∧ count is_execv added = 0%nat.
Proof.
  destruct (no_marker_no_restart
              (Proc false false false ["ajenti-panel"] 200
                    HSignalHandler HSignalHandler example_os []) eq_refl)
    as (added & Htrace & Hclosed & Hexec & _).
  exists added. by repeat split.
Defined.

(** A worker process whose serve loop has stopped only waits: its
    children are not signalled. *)
Example worker_only_waits :
  run_after_serve_forever
    (Proc false false false ["ajenti-panel"] 200
          HSignalHandler HSignalHandler example_os [])
  = (Ok Returns,
     Proc false false false ["ajenti-panel"] 200
          HSignalHandler HSignalHandler example_os [GeventWait]).
Proof. by vm_compute. Qed.

End CoreMoreExamples.

Section TlsMoreFacts.
Import Core.

(** X8: every TLS context the code builds loads certificate and key from
    one and the same file and disables SSLv2, SSLv3, TLS 1.0 and TLS 1.1.
    Client certificates are checked only when client authentication is
    enabled: then the CA file is the base certificate (also when an FQDN
    certificate serves the chain) and verification is required exactly
    when [force] is set, optional otherwise; when it is not enabled,
    [force] has no effect. *)
Theorem tls_client_auth_policy (cfg : config) (ctx : ssl_context) :
  run_ssl_context cfg = Some ctx →
  certfile ctx = keyfile ctx
  ∧ options ctx = [OP_NO_SSLv2; OP_NO_SSLv3; OP_NO_TLSv1; OP_NO_TLSv1_1]
  ∧ (truthy (client_auth_enable cfg) = false →
     cafile ctx = None ∧ ctx_verify_mode ctx = CERT_NONE)
  ∧ (truthy (client_auth_enable cfg) = true →
     cafile ctx = Some (ssl_certificate cfg)
     ∧ (ctx_verify_mode ctx = CERT_REQUIRED
        ↔ truthy (client_auth_force cfg) = true)
     ∧ (ctx_verify_mode ctx = CERT_OPTIONAL
        ↔ truthy (client_auth_force cfg) = false)).
Proof.
  unfold run_ssl_context.
  destruct (truthy (ssl_enable cfg) && eq_str (bind_mode cfg) "tcp");
    [|discriminate].
  intros [= <-]. simpl.
  split; [done|]. split; [done|].
  split; intros ->; [done|].
  split; [done|]. by destruct (truthy (client_auth_force cfg)).
Qed.

Lemma tls_client_auth_policy_witness :
  ∃ ctx,
    run_ssl_context example_config = Some ctx
    ∧ certfile ctx = keyfile ctx
    ∧ cafile ctx = None
    ∧ ctx_verify_mode ctx = CERT_NONE.
Proof.
  eexists. split; [reflexivity|].
  destruct (tls_client_auth_policy example_config _ eq_refl)
    as (Hsame & _ & Hoff & _).
  split; [exact Hsame|]. apply Hoff. reflexivity.
Defined.

End TlsMoreFacts.

(** * Properties of the start-up of [run] *)

Section SecretFacts.
Import Core Startup.

Lemma hex_length (bs : list Init.Byte.byte) :
  String.length (hex bs) = (2 * length bs)%nat.
Proof. induction bs as [|b bs IH]; simpl; [done|]. rewrite IH. lia. Qed.

Lemma hex_digits_of_byte (b : Init.Byte.byte) :
  is_hex_char (hex_digit (Strings.Byte.to_N b / 16)) = true
  ∧ is_hex_char (hex_digit (Strings.Byte.to_N b mod 16)) = true.
Proof. destruct b; split; reflexivity. Qed.

Lemma hex_chars (bs : list Init.Byte.byte) :
  forallb is_hex_char (list_ascii_of_string (hex bs)) = true.
Proof.
  induction bs as [|b bs IH]; [done|].
  destruct (hex_digits_of_byte b) as [Hhi Hlo].
  cbn [hex list_ascii_of_string forallb]. by rewrite Hhi, Hlo, IH.
Qed.

Lemma fromhex_byte (b : Init.Byte.byte) :
  match hex_value (hex_digit (Strings.Byte.to_N b / 16)),
        hex_value (hex_digit (Strings.Byte.to_N b mod 16)) with
  | Some h, Some l => Strings.Byte.of_N (16 * h + l) = Some b
  | _, _ => False
  end.
Proof. destruct b; reflexivity. Qed.

(** The bytes can be read back from their hexadecimal digits. *)
Lemma fromhex_hex (bs : list Init.Byte.byte) : fromhex (hex bs) = Some bs.
Proof.
  induction bs as [|b bs IH]; [done|].
  cbn [hex fromhex]. rewrite IH.
  pose proof (fromhex_byte b) as Hb.
  destruct (hex_value (hex_digit (Strings.Byte.to_N b / 16))) as [h|]; [|done].
  destruct (hex_value (hex_digit (Strings.Byte.to_N b mod 16))) as [l|];
    [|done].
  by rewrite Hb.
Qed.

(** X9: after the secret step of start-up the configuration always has a
    non-empty secret.  A secret that was configured is kept and nothing is
    saved; a missing (empty or null) one is replaced by the hexadecimal
    digits of the very bytes [os.urandom(16)] returned, two lowercase
    digits per byte, 32 in all, from which those bytes can be read back;
    it is logged and saved once.  Running the step again, with whatever
    random bytes, changes nothing: the secret that signs the reset tokens
    is generated at most once. *)
Theorem secret_is_generated_once (urandom16 later : list Init.Byte.byte)
    (secret : pyval) :
  length urandom16 = 16%nat →
  let secret' := (ensure_secret urandom16 secret).1 in
  truthy secret' = true
  ∧ (truthy secret = true →
     ensure_secret urandom16 secret = (secret, []))
  ∧ (truthy secret = false →
     secret' = PStr (hex urandom16)
     ∧ fromhex (hex urandom16) = Some urandom16
     ∧ String.length (hex urandom16) = 32%nat
     ∧ forallb is_hex_char (list_ascii_of_string (hex urandom16)) = true
     ∧ (ensure_secret urandom16 secret).2 =
       [ConfigLog INFO
          "No secret found, generating new and writing it in config.yml" [];
        ConfigSave (PStr (hex urandom16))])
  ∧ ensure_secret later secret' = (secret', []).
Proof.
  intros Hlen secret'.
  assert (Hgen : truthy (PStr (hex urandom16)) = true).
  { destruct urandom16 as [|b bs]; [discriminate Hlen|]. reflexivity. }
  assert (Htruthy : truthy secret' = true).
  { unfold secret', ensure_secret. by destruct (truthy secret) eqn:Hs. }
  split; [exact Htruthy|]. split; [|split].
  - intros Hs. unfold ensure_secret. by rewrite Hs.
  - intros Hs. unfold secret', ensure_secret.
    rewrite Hs. simpl. rewrite hex_length, Hlen, hex_chars, fromhex_hex.
    by repeat split.
  - unfold ensure_secret at 1. by rewrite Htruthy.
Qed.

End SecretFacts.

Section ListenerFacts.
Import Core Startup.
Context {OS : Type} `{Network OS}.

(** Case analysis over the modes and over every OS answer, with the
    string tests kept abstract. *)
Ltac listener_calls :=
  unfold sys_exit, syscall, try_except, when, bind, get, emit, set_net,
    set_listener, ret, raise;
  cbn [listener net trace fst snd negb];
  repeat match goal with
  | |- context [os_unlink ?o ?p] =>
      destruct (os_unlink o p) as [? [?|]]; cbn [listener net trace fst snd]
  | |- context [os_socket ?o ?f] =>
      destruct (os_socket o f) as [? [?|]]; cbn [listener net trace fst snd]
  | |- context [os_setsockopt ?o ?f] =>
      destruct (os_setsockopt o f) as [? [?|]]; cbn [listener net trace fst snd]
  | |- context [os_bind ?o ?a] =>
      destruct (os_bind o a) as [? [?|]]; cbn [listener net trace fst snd]
  | |- context [os_listen ?o ?a] =>
      destruct (os_listen o a) as [? [?|]]; cbn [listener net trace fst snd]
  | |- context [is_OSError ?e] =>
      destruct (is_OSError e) eqn:?; cbn [listener net trace fst snd]
  | |- context [os_path_exists ?o ?p] =>
      destruct (os_path_exists o p) eqn:?; cbn [listener net trace fst snd]
  | |- context [if negb ?b then _ else _] =>
      destruct b; cbn [listener net trace fst snd negb]
  | |- context [if ?b then AF_INET6 else AF_INET] =>
      destruct b; cbn [listener net trace fst snd negb]
  end.

Ltac run_listener_cases cfg platform :=
  unfold run_listener, bind_unix, bind_tcp;
  generalize (py_in platform ["freebsd"; "osx"]); intros bsd;
  generalize (has_colon (host cfg)); intros colon;
  destruct (eq_str (mode cfg) "unix") eqn:Hunix;
  destruct (eq_str (mode cfg) "tcp") eqn:Htcp;
  try (apply eq_str_true in Hunix; apply eq_str_true in Htcp; congruence);
  clear Hunix Htcp;
  listener_calls.

Ltac split_elem_of :=
  repeat match goal with
  | H : _ ∈ [] |- _ => by apply elem_of_nil in H
  | H : _ ∈ _ :: _ |- _ => apply elem_of_cons in H as [H | H]
  end.

(** Split a concrete list of events before its last entries. *)
Ltac find_prefix :=
  first [ by exists [] | by eexists [_] | by eexists [_; _]
        | by eexists [_; _; _] | by eexists [_; _; _; _]
        | by eexists [_; _; _; _; _] | by eexists [_; _; _; _; _; _]
        | by eexists [_; _; _; _; _; _; _] ].

Ltac find_prefix2 :=
  first [ by exists [], _ | by eexists [_], _ | by eexists [_; _], _
        | by eexists [_; _; _], _ | by eexists [_; _; _; _], _
        | by eexists [_; _; _; _; _], _ | by eexists [_; _; _; _; _; _], _
        | by eexists [_; _; _; _; _; _; _], _ ].

(** X10: a bind mode other than ['unix'] and ['tcp'] creates no socket at
    all, and [run] then fails with [UnboundLocalError] where it first uses
    the listener; nothing has been done to the OS. *)
Theorem listener_unbound_for_unknown_mode (cfg : bind_config)
    (platform : string) (s : boot OS) :
  mode cfg ≠ PStr "unix" →
  mode cfg ≠ PStr "tcp" →
  listener s = None →
  run_listener cfg platform s = (Raise (OtherError "UnboundLocalError"), s).
Proof.
  intros Hunix Htcp Hnone.
  assert (eq_str (mode cfg) "unix" = false) as Hu.
  { destruct (eq_str (mode cfg) "unix") eqn:E; [|done].
    by apply eq_str_true in E. }
  assert (eq_str (mode cfg) "tcp" = false) as Ht.
  { destruct (eq_str (mode cfg) "tcp") eqn:E; [|done].
    by apply eq_str_true in E. }
  unfold run_listener. rewrite Hu, Ht.
  unfold when, bind, get, ret, raise. simpl. rewrite Hnone. by destruct s.
Qed.

(** X11: the listener is put into listening state only right after a
    bind that succeeded, and always with a backlog of 10.  Whenever a bind
    fails with an [OSError], in either mode, the next thing that happens
    is the error line in the log (with the socket path in ['unix'] mode,
    with the text of the exception in ['tcp'] mode) and then
    [sys.exit(1)]: that exit is the last thing that happens, start-up
    ends in [SystemExit] and [listen] is never called.  When the
    bootstrap returns normally its last action is the successful
    [listen(10)]. *)
Theorem failed_bind_exits_without_listening (cfg : bind_config)
    (platform : string) (s : boot OS) :
  listener s = None →
  ∃ added,
    trace (run_listener cfg platform s).2 = trace s ++ added
    ∧ (∀ addr e,
         Bind addr (Some e) ∈ added → is_OSError e = true →
         (run_listener cfg platform s).1 = Raise (OtherError "SystemExit")
         ∧ (∃ before,
              added = before ++ [Bind addr (Some e); bind_failure_log addr e;
                                 SysExit 1])
         ∧ ∀ n r, Listen n r ∉ added)
    ∧ (∀ n r, Listen n r ∈ added →
              n = 10
              ∧ ∃ before addr,
                  added = before ++ [Bind addr None; Listen 10 r])
    ∧ ((run_listener cfg platform s).1 = Ok tt →
       last added = Some (Listen 10 None)).
Proof.
  intros Hnone. destruct s as [l o tr]. simpl in Hnone. subst l.
  run_listener_cases cfg platform.
  all: rewrite <- ?app_assoc; simpl.
  all: first [ exists []; split; [by rewrite app_nil_r|]
             | eexists; split; [reflexivity|] ].
  all: split; [|split].
  all: try (intros xaddr xe Hin Hxe; split_elem_of; simplify_eq;
            try congruence;
            (split; [done|]);
            (split; [find_prefix|]);
            intros xn xr Hl; split_elem_of; simplify_eq).
  all: try (intros xn xr Hin; split_elem_of; simplify_eq;
            (split; [done|]); find_prefix2).
  all: try (intros Hok; by simplify_eq).
Qed.

Lemma has_colon_app (a b : string) : has_colon (a +:+ ":" +:+ b) = true.
Proof.
  induction a as [|c a IH]; [done|].
  rewrite append_cons. cbn [has_colon]. rewrite IH. by destruct (Ascii.eqb c ":").
Qed.

Lemma has_colon_occurs (s : string) :
  has_colon s = true ↔ ∃ a b, s = a +:+ ":" +:+ b.
Proof.
  split; [|intros (a & b & ->); apply has_colon_app].
  induction s as [|c s IH]; [discriminate|]. cbn [has_colon].
  destruct (Ascii.eqb c ":") eqn:Hc.
  - apply Ascii.eqb_eq in Hc as ->. intros _. by exists "", s.
  - intros (a & b & ->)%IH. by exists (String c a), b.
Qed.

(** X12: in ['tcp'] mode the first thing done is to create the socket,
    of family [AF_INET6] exactly when the host contains a colon and
    [AF_INET] otherwise; the file system is never consulted, and the only
    address ever bound is the configured host and port. *)
Theorem tcp_family_follows_host (cfg : bind_config) (platform : string)
    (s : boot OS) :
  mode cfg = PStr "tcp" →
  ∃ fam r rest,
    trace (run_listener cfg platform s).2 = trace s ++ Socket fam r :: rest
    ∧ (fam = AF_INET6 ↔ ∃ a b, host cfg = a +:+ ":" +:+ b)
    ∧ (fam = AF_INET ↔ ¬ ∃ a b, host cfg = a +:+ ":" +:+ b)
    ∧ (∀ path answer, PathExists path answer ∉ rest)
    ∧ (∀ path r', Unlink path r' ∉ rest)
    ∧ (∀ addr r', Bind addr r' ∈ rest →
                  addr = InetAddress (host cfg) (port cfg)).
Proof.
  intros Hmode. destruct s as [l o tr].
  pose proof (has_colon_occurs (host cfg)) as Hcolon.
  unfold run_listener, bind_unix, bind_tcp. rewrite Hmode.
  change (eq_str (PStr "tcp") "unix") with false.
  change (eq_str (PStr "tcp") "tcp") with true.
  generalize (py_in platform ["freebsd"; "osx"]); intros bsd.
  destruct (has_colon (host cfg)).
  all: listener_calls.
  all: rewrite <- ?app_assoc; simpl.
  all: eexists _, _, _; (split; [reflexivity|]).
  all: split; [split; [intros Hf; first [by apply Hcolon|discriminate Hf]
                      |intros Hc; apply Hcolon in Hc;
                       first [done|discriminate Hc]]|].
  all: split; [split; [intros Hf Hc; apply Hcolon in Hc;
                       first [discriminate Hf|discriminate Hc]
                      |intros Hn; first [done|exfalso; apply Hn; by apply Hcolon]]|].
  all: split; [intros xp xa Hin; split_elem_of; simplify_eq|].
  all: split; [intros xp xr Hin; split_elem_of; simplify_eq|].
  all: intros xaddr xr Hin; split_elem_of; by simplify_eq.
Qed.

(** X13: [TCP_CORK] is best effort.  On ['freebsd'] and ['osx'] it is
    never attempted.  Elsewhere, when setting it fails with an [OSError],
    a warning is logged and the bootstrap carries on with
    [SO_REUSEADDR]. *)
Theorem tcp_cork_is_best_effort (cfg : bind_config) (platform : string)
    (s : boot OS) :
  mode cfg = PStr "tcp" →
  ∃ added,
    trace (run_listener cfg platform s).2 = trace s ++ added
    ∧ (py_in platform ["freebsd"; "osx"] = true →
       ∀ r, SetSockOpt TCP_CORK r ∉ added)
    ∧ (∀ e, SetSockOpt TCP_CORK (Some e) ∈ added → is_OSError e = true →
            Log WARNING "Could not set TCP_CORK" [] ∈ added
            ∧ ∃ r, SetSockOpt SO_REUSEADDR r ∈ added).
Proof.
  intros Hmode. destruct s as [l o tr].
  unfold run_listener, bind_unix, bind_tcp. rewrite Hmode.
  change (eq_str (PStr "tcp") "unix") with false.
  change (eq_str (PStr "tcp") "tcp") with true.
  generalize (has_colon (host cfg)); intros colon.
  destruct (py_in platform ["freebsd"; "osx"]).
  all: listener_calls.
  all: rewrite <- ?app_assoc; simpl.
  all: eexists; (split; [reflexivity|]).
  all: split; [try done; intros _ xr Hin; split_elem_of; simplify_eq|].
  all: intros xe Hin Hxe; split_elem_of; simplify_eq; try congruence.
  all: split; [|eexists]; repeat constructor.
Qed.

(** X14: in ['unix'] mode the socket path is unlinked exactly when it
    exists, before any socket is created, and the only address ever
    bound is that path. *)
Theorem unix_socket_path_is_cleared (cfg : bind_config) (platform : string)
    (s : boot OS) :
  mode cfg = PStr "unix" →
  ∃ rest,
    trace (run_listener cfg platform s).2 =
      trace s ++ PathExists (socket cfg) (os_path_exists (net s) (socket cfg))
                 :: rest
    ∧ (os_path_exists (net s) (socket cfg) = true →
       ∃ r rest', rest = Unlink (socket cfg) r :: rest'
                  ∧ ∀ path r', Unlink path r' ∉ rest')
    ∧ (os_path_exists (net s) (socket cfg) = false →
       ∀ path r, Unlink path r ∉ rest)
    ∧ (∀ addr r, Bind addr r ∈ rest → addr = UnixAddress (socket cfg)).
Proof.
  intros Hmode. destruct s as [l o tr].
  unfold run_listener, bind_unix, bind_tcp. rewrite Hmode.
  change (eq_str (PStr "unix") "unix") with true.
  change (eq_str (PStr "unix") "tcp") with false.
  cbn [net].
  destruct (os_path_exists o (socket cfg)) eqn:Hfound.
  all: listener_calls.
  all: try congruence.
  all: rewrite <- ?app_assoc; simpl.
  all: eexists; (split; [reflexivity|]).
  all: split; [try done; intros _; eexists _, _; (split; [reflexivity|]);
               intros xp xr Hin; split_elem_of; simplify_eq|].
  all: split; [try done; intros _ xp xr Hin; split_elem_of; simplify_eq|].
  all: intros xaddr xr Hin; split_elem_of; by simplify_eq.
Qed.

End ListenerFacts.

Section ListenerExamples.
Import Core Startup.

(** X15: with a file system on which binding fails exactly for a path
    that exists, binding the UNIX socket twice in a row succeeds both
    times: the second start-up finds the socket file the first one left
    behind and removes it before binding. *)
Theorem unix_rebind_succeeds (cfg : bind_config) (platform : string)
    (o : list string) :
  mode cfg = PStr "unix" →
  let first := run_listener cfg platform (Boot None o []) in
  let second := run_listener cfg platform (Boot None (net first.2) []) in
  first.1 = Ok tt
  ∧ socket cfg ∈ net first.2
  ∧ second.1 = Ok tt
  ∧ Unlink (socket cfg) None ∈ trace second.2.
Proof.
  intros Hmode.
  assert (Hgone : ∀ l : list string, socket cfg ∉ filter (λ p, p ≠ socket cfg) l).
  { intros l [Hne _]%list_elem_of_filter. done. }
  assert (Hrun : ∀ o' : list string,
    run_listener cfg platform (Boot None o' []) =
    if bool_decide (socket cfg ∈ o') then
      (Ok tt,
       Boot (Some AF_UNIX) (socket cfg :: filter (λ p, p ≠ socket cfg) o')
         [PathExists (socket cfg) true; Unlink (socket cfg) None;
          Socket AF_UNIX None; Bind (UnixAddress (socket cfg)) None;
          Listen 10 None])
    else
      (Ok tt,
       Boot (Some AF_UNIX) (socket cfg :: o')
         [PathExists (socket cfg) false;
          Socket AF_UNIX None; Bind (UnixAddress (socket cfg)) None;
          Listen 10 None])).
  { intros o'. unfold run_listener, bind_unix. rewrite Hmode.
    change (eq_str (PStr "unix") "unix") with true.
    change (eq_str (PStr "unix") "tcp") with false.
    unfold sys_exit, syscall, try_except, when, bind, get, emit, set_net,
      set_listener, ret, raise. simpl.
    destruct (bool_decide (socket cfg ∈ o')) eqn:Hin; simpl.
    - rewrite bool_decide_eq_false_2 by apply Hgone. done.
    - by rewrite Hin. }
  cbv zeta. rewrite (Hrun o).
  destruct (bool_decide (socket cfg ∈ o)); cbn [fst snd net];
    rewrite Hrun, bool_decide_eq_true_2 by (by left);
    repeat split; try (by left); cbn [snd trace]; by right; left.
Qed.

Lemma secret_is_generated_once_witness :
  truthy (ensure_secret sixteen_bytes (PStr "")).1 = true
  ∧ (ensure_secret sixteen_bytes (PStr "")).1
    = PStr "00017f80a5ff100f00017f80a5ff100f"
  ∧ fromhex "00017f80a5ff100f00017f80a5ff100f" = Some sixteen_bytes
  ∧ ensure_secret [] (ensure_secret sixteen_bytes (PStr "")).1
    = ((ensure_secret sixteen_bytes (PStr "")).1, []).
Proof.
  destruct (secret_is_generated_once sixteen_bytes [] (PStr "") eq_refl)
    as (Htruthy & _ & Hnew & Hagain).
  destruct (Hnew eq_refl) as (Hsecret & Hback & _).
  split; [exact Htruthy|]. split; [exact Hsecret|].
  split; [exact Hback|exact Hagain].
Defined.

Lemma listener_unbound_for_unknown_mode_witness :
  run_listener (BindConfig (PStr "udp") "" "0.0.0.0" (PInt 8000)) "debian"
    (Boot None ([] : list string) [])
  = (Raise (OtherError "UnboundLocalError"), Boot None [] []).
Proof.
  apply listener_unbound_for_unknown_mode; [discriminate|discriminate|reflexivity].
Defined.

Lemma failed_bind_exits_without_listening_witness :
  ∃ added,
    trace (run_listener tcp_config "debian" (Boot None ["::1:8000"] [])).2
    = [] ++ added
    ∧ (run_listener tcp_config "debian" (Boot None ["::1:8000"] [])).1
      = Raise (OtherError "SystemExit")
    ∧ (∃ before,
         added = before ++
           [Bind (InetAddress "::1" (PInt 8000)) (Some (OSError EADDRINUSE));
            Log ERROR "Could not bind: %s" [PStr "98"];
            SysExit 1])
    ∧ ∀ n r, Listen n r ∉ added.
Proof.
  destruct (failed_bind_exits_without_listening tcp_config "debian"
              (Boot None ["::1:8000"] []) eq_refl)
    as (added & Htrace & Hfail & _).
  exists added. split; [exact Htrace|].
  apply (Hfail (InetAddress "::1" (PInt 8000)) (OSError EADDRINUSE));
    [|reflexivity].
  vm_compute in Htrace. subst added. do 5 right. left.
Defined.

Lemma tcp_family_follows_host_witness :
  ∃ fam r rest,
    trace (run_listener tcp_config "debian" (Boot None [] [])).2
    = [] ++ Socket fam r :: rest
    ∧ (fam = AF_INET6 ↔ ∃ a b, host tcp_config = a +:+ ":" +:+ b).
Proof.
  destruct (tcp_family_follows_host tcp_config "debian"
              (Boot None ([] : list string) []) eq_refl)
    as (fam & r & rest & Htrace & Hfam & _).
  by exists fam, r, rest.
Defined.

Lemma tcp_cork_is_best_effort_witness :
  ∃ added,
    trace (run_listener tcp_config "debian" (Boot None [] [])).2 = [] ++ added
    ∧ Log WARNING "Could not set TCP_CORK" [] ∈ added
    ∧ ∃ r, SetSockOpt SO_REUSEADDR r ∈ added.
Proof.
  destruct (tcp_cork_is_best_effort tcp_config "debian"
              (Boot None ([] : list string) []) eq_refl)
    as (added & Htrace & _ & Hcork).
  exists added. split; [exact Htrace|].
  apply (Hcork (OSError ENOPROTOOPT)); [|reflexivity].
  vm_compute in Htrace. subst added. right. left.
Defined.

Lemma unix_socket_path_is_cleared_witness :
  ∃ rest,
    trace (run_listener unix_config "debian"
             (Boot None ["/var/run/ajenti.sock"] [])).2
    = [] ++ PathExists "/var/run/ajenti.sock" true :: rest
    ∧ ∃ r rest', rest = Unlink "/var/run/ajenti.sock" r :: rest'.
Proof.
  destruct (unix_socket_path_is_cleared unix_config "debian"
              (Boot None ["/var/run/ajenti.sock"] []) eq_refl)
    as (rest & Htrace & Hfound & _).
  exists rest. split; [exact Htrace|].
  destruct (Hfound eq_refl) as (r & rest' & Hrest & _). by exists r, rest'.
Defined.

Lemma unix_rebind_succeeds_witness :
  (run_listener unix_config "debian" (Boot None [] [])).1 = Ok tt
  ∧ (run_listener unix_config "debian"
       (Boot None (net (run_listener unix_config "debian"
                          (Boot None [] [])).2) [])).1 = Ok tt.
Proof.
  destruct (unix_rebind_succeeds unix_config "debian" [] eq_refl)
    as (Hfirst & _ & Hsecond & _).
  by split.
Defined.

(** Start-up on a host whose port is already taken. *)
Example port_in_use_trace :
  trace (run_listener tcp_config "debian" (Boot None ["::1:8000"] [])).2 =
  [Socket AF_INET6 None;
   SetSockOpt TCP_CORK (Some (OSError ENOPROTOOPT));
   Log WARNING "Could not set TCP_CORK" [];
   SetSockOpt SO_REUSEADDR None;
   Log INFO "Binding to [%s]:%s" [PStr "::1"; PInt 8000];
   Bind (InetAddress "::1" (PInt 8000)) (Some (OSError EADDRINUSE));
   Log ERROR "Could not bind: %s" [PStr "98"];
   SysExit 1].
Proof. by vm_compute. Qed.

End ListenerExamples.

(** * Further properties of [plugins/core/views/api.py] *)

Section LanguagesFacts.
Import Api ApiMore.

Lemma collect_inner (names : list string) : ∀ (acc : gset string) (lang : string),
  lang ∈ foldl (λ languages lang,
                  if negb (String.eqb lang "app.pot") then languages ∪ {[ lang ]}
                  else languages) acc names
  ↔ lang ∈ acc ∨ (lang ≠ "app.pot" ∧ lang ∈ names).
Proof.
  induction names as [|name names IH]; intros acc lang; simpl.
  - rewrite elem_of_nil. tauto.
  - specialize (IH (if negb (String.eqb name "app.pot")
                    then acc ∪ {[ name ]} else acc) lang).
    pose proof (elem_of_cons names lang name) as Hcons.
    destruct (String.eqb name "app.pot") eqn:Hn; simpl in IH.
    + apply String.eqb_eq in Hn as ->. tauto.
    + apply String.eqb_neq in Hn.
      pose proof (elem_of_union acc {[ name ]} lang) as Hunion.
      pose proof (elem_of_singleton (C := gset string) lang name) as Hsingle.
      split.
      * intros [[?|Hx%Hsingle]%Hunion | [? ?]]%IH; subst; tauto.
      * intros Hl. apply IH. rewrite Hunion, Hsingle. tauto.
Qed.

Lemma collect_languages_spec (plugins : list string)
    (listing : string → option (list string)) (lang : string) :
  lang ∈ collect_languages plugins listing
  ↔ lang ≠ "app.pot"
    ∧ ∃ id names, id ∈ plugins ∧ listing id = Some names ∧ lang ∈ names.
Proof.
  unfold collect_languages.
  assert (Hgen : ∀ acc : gset string,
    lang ∈ foldl (λ languages id,
                    match listing id with
                    | Some names =>
                        foldl (λ languages lang,
                                 if negb (String.eqb lang "app.pot")
                                 then languages ∪ {[ lang ]} else languages)
                              languages names
                    | None => languages
                    end) acc plugins
    ↔ lang ∈ acc ∨ (lang ≠ "app.pot"
         ∧ ∃ id names, id ∈ plugins ∧ listing id = Some names ∧ lang ∈ names)).
  { induction plugins as [|id plugins IH]; intros acc; simpl.
    - split; [tauto|]. intros [?|[_ (id & names & []%elem_of_nil & _)]]. done.
    - rewrite IH. destruct (listing id) as [names|] eqn:Hid.
      + rewrite collect_inner. split.
        * intros [[?|[? ?]]|[? (id' & names' & ? & ? & ?)]]; [tauto| |].
          -- right. split; [done|]. exists id, names. by rewrite elem_of_cons; auto.
          -- right. split; [done|]. exists id', names'. rewrite elem_of_cons; auto.
        * intros [?|[? (id' & names' & [->|?]%elem_of_cons & Hl & ?)]]; [tauto| |].
          -- rewrite Hid in Hl. injection Hl as <-. tauto.
          -- right. split; [done|]. by exists id', names'.
      + split.
        * intros [?|[? (id' & names' & ? & ? & ?)]]; [tauto|].
          right. split; [done|]. exists id', names'. rewrite elem_of_cons; auto.
        * intros [?|[? (id' & names' & [->|?]%elem_of_cons & Hl & ?)]]; [tauto| |].
          -- by rewrite Hid in Hl.
          -- right. split; [done|]. by exists id', names'. }
  rewrite Hgen, elem_of_empty. tauto.
Qed.

(** X16: the languages endpoint answers with the locale names found in
    the plugins' locale directories, each exactly once, in ascending
    order, and never with ['app.pot']; plugins without a locale directory
    contribute nothing; and the answer depends neither on the order in
    which the plugins are visited nor on how often a name is listed. *)
Theorem languages_sorted_unique (plugins : list string)
    (listing : string → option (list string)) :
  Sorted.Sorted String.le (handle_api_languages plugins listing)
  ∧ NoDup (handle_api_languages plugins listing)
  ∧ (∀ lang,
       lang ∈ handle_api_languages plugins listing
       ↔ lang ≠ "app.pot"
         ∧ ∃ id names, id ∈ plugins ∧ listing id = Some names ∧ lang ∈ names)
  ∧ (∀ plugins',
       (∀ id, id ∈ plugins ↔ id ∈ plugins') →
       handle_api_languages plugins' listing
       = handle_api_languages plugins listing).
Proof.
  assert (Hperm : ∀ ps, handle_api_languages ps listing
                        ≡ₚ elements (collect_languages ps listing))
    by (intros ps; apply sorting.merge_sort_Permutation).
  assert (Hsorted : ∀ ps,
    Sorted.Sorted String.le (handle_api_languages ps listing))
    by (intros ps; apply (sorting.Sorted_merge_sort String.le)).
  assert (Hnodup : ∀ ps, NoDup (handle_api_languages ps listing))
    by (intros ps; rewrite Hperm; apply NoDup_elements).
  assert (Hin : ∀ ps lang,
    lang ∈ handle_api_languages ps listing
    ↔ lang ≠ "app.pot"
      ∧ ∃ id names, id ∈ ps ∧ listing id = Some names ∧ lang ∈ names).
  { intros ps lang. by rewrite Hperm, elem_of_elements, collect_languages_spec. }
  split; [apply Hsorted|]. split; [apply Hnodup|]. split; [apply Hin|].
  intros plugins' Hsame.
  apply (sorting.Sorted_unique String.le); [apply Hsorted..|].
  apply NoDup_Permutation; [apply Hnodup..|].
  intros lang. rewrite !Hin. split.
  - intros [? (id & names & ?%Hsame & ? & ?)]. split; [done|]. by exists id, names.
  - intros [? (id & names & ?%Hsame & ? & ?)]. split; [done|]. by exists id, names.
Qed.

Lemma languages_sorted_unique_witness :
  handle_api_languages ["dashboard"; "core"; "terminal"] example_listing
  = handle_api_languages ["core"; "terminal"; "dashboard"; "core"] example_listing.
Proof.
  destruct (languages_sorted_unique ["core"; "terminal"; "dashboard"; "core"]
              example_listing) as (_ & _ & _ & Horder).
  apply Horder. intros id. rewrite !elem_of_cons, !elem_of_nil. tauto.
Defined.

Example languages_example :
  handle_api_languages ["dashboard"; "core"; "terminal"] example_listing
  = ["cs_CZ"; "de_DE"; "fr_FR"].
Proof. by vm_compute. Qed.

End LanguagesFacts.

Section AuthMoreFacts.
Import Api ApiMore.
Context {services : Services}.

(** [handle_api_auth] on a body with a [mode], in closed form. *)
Lemma handle_api_auth_eq (http : http_context) (w : world) (mode : pyval) :
  body http !! "mode" = Some mode →
  let username := dict_get (body http) "username" in
  let password := dict_get (body http) "password" in
  let ip := dict_get (environ http) "REMOTE_ADDR" in
  handle_api_auth http w =
  if eq_str mode "normal" then
    if truthy (check_password username password) then
      (Ok [("success", PBool true); ("username", username)],
       extend w (shared w)
         [CheckPassword username password;
          PrepareSessionRedirect username (check_password username password)])
    else
      (Ok [("success", PBool false); ("error", PNone)],
       extend w (gevent_sleep 3 (shared w))
         [CheckPassword username password;
          LogWarning ("Failed login from " +:+ py_str username +:+
                      " at IP : " +:+ py_str ip);
          Sleep 3])
  else if eq_str mode "sudo" then
    match check_sudo_password username password with
    | Ok ok =>
        if truthy ok then
          (Ok [("success", PBool true); ("username", PStr "root")],
           extend w (shared w)
             [CheckSudoPassword username password; WorkerTerminate;
              PrepareSessionRedirect (PStr "root") PNone])
        else
          (Ok [("success", PBool false);
               ("error", PStr "Authorization failed")],
           extend w (gevent_sleep 3 (shared w))
             [CheckSudoPassword username password; Sleep 3])
    | Raise e =>
        if is_SudoError e then
          (Ok [("success", PBool false); ("error", message e)],
           extend w (gevent_sleep 3 (shared w))
             [CheckSudoPassword username password; Sleep 3])
        else
          (Raise e, extend w (shared w) [CheckSudoPassword username password])
    end
  else (Ok [("success", PBool false); ("error", PStr "Invalid mode")], w).
Proof.
  intros Hmode username password ip.
  unfold handle_api_auth, getitem. rewrite Hmode.
  unfold bind at 1, ret at 1. fold username password ip.
  destruct (eq_str mode "normal").
  - unfold bind at 1, emit at 1.
    destruct (truthy (check_password username password));
      unfold sleep, bind, emit, update_shared, ret, extend; simpl;
      by rewrite <- ?app_assoc.
  - destruct (eq_str mode "sudo"); [|done].
    unfold try_except, sleep, bind, emit, update_shared, ret, extend. simpl.
    destruct (check_sudo_password username password) as [ok|e].
    + destruct (truthy ok); simpl; by rewrite <- ?app_assoc.
    + destruct (is_SudoError e); simpl; by rewrite <- ?app_assoc.
Qed.

Ltac split_elem_of_events :=
  repeat match goal with
  | H : _ ∈ [] |- _ => by apply elem_of_nil in H
  | H : _ ∈ _ :: _ |- _ => apply elem_of_cons in H as [H | H]
  end.

(** X17: authentication grants nothing without a passed check.  Whenever
    the handler replies, the reply carries a Boolean [success]; a session
    redirect is prepared exactly when [success] is true, and then for the
    very identity named in the reply; the worker is terminated only by a
    successful [sudo]; and [success] is true only if the password check
    of the requested mode passed for the supplied credentials. *)
Theorem auth_grants_only_on_success (http : http_context) (w w' : world)
    (reply : list (string * pyval)) :
  let username := dict_get (body http) "username" in
  let password := dict_get (body http) "password" in
  handle_api_auth http w = (Ok reply, w') →
  ∃ added success,
    trace w' = trace w ++ added
    ∧ reply_get "success" reply = Some (PBool success)
    ∧ (success = true ↔ ∃ u a, PrepareSessionRedirect u a ∈ added)
    ∧ (∀ u a, PrepareSessionRedirect u a ∈ added →
              reply_get "username" reply = Some u)
    ∧ (WorkerTerminate ∈ added →
       success = true ∧ body http !! "mode" = Some (PStr "sudo"))
    ∧ (success = true →
       (body http !! "mode" = Some (PStr "normal")
        ∧ truthy (check_password username password) = true)
       ∨ (body http !! "mode" = Some (PStr "sudo")
          ∧ ∃ ok, check_sudo_password username password = Ok ok
                  ∧ truthy ok = true)).
Proof.
  intros username password.
  destruct (body http !! "mode") as [mode|] eqn:Hmode.
  2: { unfold handle_api_auth, getitem. rewrite Hmode. discriminate. }
  rewrite (handle_api_auth_eq http w mode Hmode). fold username password.
  destruct (eq_str mode "normal") eqn:Hnormal.
  { apply eq_str_true in Hnormal as ->.
    destruct (truthy (check_password username password)) eqn:Hcheck;
      intros [= <- <-]; eexists _, _; (split; [reflexivity|]);
      (split; [reflexivity|]).
    - split; [split; [intros _; eexists _, _; by right; left|done]|].
      split; [intros u a Hin; split_elem_of_events; by simplify_eq|].
      split; [intros Hin; split_elem_of_events; by simplify_eq|].
      intros _. by left.
    - split; [split; [done|intros (u & a & Hin); split_elem_of_events;
                            by simplify_eq]|].
      split; [intros u a Hin; split_elem_of_events; by simplify_eq|].
      split; [intros Hin; split_elem_of_events; by simplify_eq|done]. }
  destruct (eq_str mode "sudo") eqn:Hsudo.
  { apply eq_str_true in Hsudo as ->.
    destruct (check_sudo_password username password) as [ok|e] eqn:Hcheck.
    - destruct (truthy ok) eqn:Hok;
        intros [= <- <-]; eexists _, _; (split; [reflexivity|]);
        (split; [reflexivity|]).
      + split; [split; [intros _; eexists _, _; by do 2 right; left|done]|].
        split; [intros u a Hin; split_elem_of_events; by simplify_eq|].
        split; [done|]. intros _. right. split; [done|]. by exists ok.
      + split; [split; [done|intros (u & a & Hin); split_elem_of_events;
                              by simplify_eq]|].
        split; [intros u a Hin; split_elem_of_events; by simplify_eq|].
        split; [intros Hin; split_elem_of_events; by simplify_eq|done].
    - destruct (is_SudoError e); [|discriminate].
      intros [= <- <-]; eexists _, _; (split; [reflexivity|]);
        (split; [reflexivity|]).
      split; [split; [done|intros (u & a & Hin); split_elem_of_events;
                            by simplify_eq]|].
      split; [intros u a Hin; split_elem_of_events; by simplify_eq|].
      split; [intros Hin; split_elem_of_events; by simplify_eq|done]. }
  intros [= <- <-]. exists [], false. rewrite app_nil_r.
  split; [done|]. split; [done|].
  split; [split; [done|intros (u & a & []%elem_of_nil)]|].
  split; [intros u a []%elem_of_nil|].
  split; [intros []%elem_of_nil|done].
Qed.

(** X18: in the two recognised modes every refusal is delayed: a reply
    with [success] false comes only after [gevent.sleep(3)], which is the
    last thing the handler does; a reply with [success] true is never
    delayed. *)
Theorem auth_failure_is_delayed (http : http_context) (w w' : world)
    (mode : pyval) (reply : list (string * pyval)) :
  body http !! "mode" = Some mode →
  mode = PStr "normal" ∨ mode = PStr "sudo" →
  handle_api_auth http w = (Ok reply, w') →
  ∃ added,
    trace w' = trace w ++ added
    ∧ (reply_get "success" reply = Some (PBool false) →
       last added = Some (Sleep 3)
       ∧ shared w' = gevent_sleep 3 (shared w))
    ∧ (reply_get "success" reply = Some (PBool true) →
       (∀ seconds, Sleep seconds ∉ added) ∧ shared w' = shared w).
Proof.
  intros Hmode Hknown. rewrite (handle_api_auth_eq http w mode Hmode).
  destruct Hknown as [-> | ->];
    change (eq_str (PStr "normal") "normal") with true;
    change (eq_str (PStr "sudo") "normal") with false;
    change (eq_str (PStr "sudo") "sudo") with true; cbv iota.
  - destruct (truthy (check_password _ _));
      intros [= <- <-]; eexists; (split; [reflexivity|]); split; try done.
    intros _. split; [|done]. intros seconds Hin.
    split_elem_of_events; by simplify_eq.
  - destruct (check_sudo_password _ _) as [ok|e].
    + destruct (truthy ok);
        intros [= <- <-]; eexists; (split; [reflexivity|]); split; try done.
      intros _. split; [|done]. intros seconds Hin.
      split_elem_of_events; by simplify_eq.
    + destruct (is_SudoError e); [|discriminate].
      intros [= <- <-]; eexists; (split; [reflexivity|]); split; done.
Qed.

(** X19: the [sudo] branch catches [SudoError] and nothing else.  When
    the [sudo] check raises any other exception, that exception leaves
    the handler as it is: there is no 3 second sleep, the worker is not
    terminated, no redirect is prepared and no reply is built; all that
    has happened is the check itself.  And a body without [mode] ends the
    handler in [KeyError] before any check is made. *)
Theorem auth_sudo_catches_only_SudoError
    (http : http_context) (w : world) :
  let username := dict_get (body http) "username" in
  let password := dict_get (body http) "password" in
  (body http !! "mode" = None →
   handle_api_auth http w = (Raise (KeyError "mode"), w))
  ∧ (body http !! "mode" = Some (PStr "sudo") →
     ∀ e, check_sudo_password username password = Raise e →
          is_SudoError e = false →
          handle_api_auth http w =
          (Raise e, extend w (shared w) [CheckSudoPassword username password])).
Proof.
  intros username password. split.
  - intros Hmode. unfold handle_api_auth, getitem. by rewrite Hmode.
  - intros Hmode e Hcheck He.
    rewrite (handle_api_auth_eq http w _ Hmode). fold username password.
    change (eq_str (PStr "sudo") "normal") with false.
    change (eq_str (PStr "sudo") "sudo") with true. cbv iota.
    by rewrite Hcheck, He.
Qed.

(** X20: a refused elevation says why.  When the [sudo] check returns a
    falsy value the error is ['Authorization failed']; when it raises
    [SudoError] the error is that exception's message.  In both cases the
    reply comes after the 3 second sleep, and the worker is left
    running. *)
Theorem sudo_failure_reports_reason (http : http_context) (w : world) :
  let username := dict_get (body http) "username" in
  let password := dict_get (body http) "password" in
  body http !! "mode" = Some (PStr "sudo") →
  (∀ ok, check_sudo_password username password = Ok ok →
         truthy ok = false →
         handle_api_auth http w =
         (Ok [("success", PBool false); ("error", PStr "Authorization failed")],
          extend w (gevent_sleep 3 (shared w))
            [CheckSudoPassword username password; Sleep 3]))
  ∧ (∀ reason, check_sudo_password username password
               = Raise (SudoError reason) →
               handle_api_auth http w =
               (Ok [("success", PBool false); ("error", reason)],
                extend w (gevent_sleep 3 (shared w))
                  [CheckSudoPassword username password; Sleep 3])).
Proof.
  intros username password Hmode.
  rewrite (handle_api_auth_eq http w _ Hmode). fold username password.
  change (eq_str (PStr "sudo") "normal") with false.
  change (eq_str (PStr "sudo") "sudo") with true. cbv iota.
  split.
  - intros ok -> Hok. by rewrite Hok.
  - by intros reason ->.
Qed.

(** X21: a [normal] login whose password check passes prepares the
    session redirect for the supplied user name, handing over the auth
    info the check returned, and answers
    [{success: true, username: <that name>}] without any delay. *)
Theorem normal_login_success (http : http_context) (w : world) :
  let username := dict_get (body http) "username" in
  let password := dict_get (body http) "password" in
  body http !! "mode" = Some (PStr "normal") →
  truthy (check_password username password) = true →
  handle_api_auth http w =
  (Ok [("success", PBool true); ("username", username)],
   extend w (shared w)
     [CheckPassword username password;
      PrepareSessionRedirect username (check_password username password)]).
Proof.
  intros username password Hmode Hcheck.
  rewrite (handle_api_auth_eq http w _ Hmode). fold username password.
  change (eq_str (PStr "normal") "normal") with true. cbv iota.
  by rewrite Hcheck.
Qed.

End AuthMoreFacts.

Section AuthMoreExamples.
Import Api ApiMore.

Lemma auth_grants_only_on_success_witness :
  ∃ added success,
    trace (handle_api_auth login_request example_world).2 = [] ++ added
    ∧ reply_get "success" [("success", PBool true); ("username", PStr "alice")]
      = Some (PBool success)
    ∧ (success = true ↔ ∃ u a, PrepareSessionRedirect u a ∈ added).
Proof.
  assert (Hrun : handle_api_auth login_request example_world =
    (Ok [("success", PBool true); ("username", PStr "alice")],
     (handle_api_auth login_request example_world).2))
    by (vm_compute; reflexivity).
  destruct (auth_grants_only_on_success login_request example_world
              (handle_api_auth login_request example_world).2
              [("success", PBool true); ("username", PStr "alice")] Hrun)
    as (added & success & Htrace & Hsuccess & Hiff & _).
  by exists added, success.
Defined.

Lemma auth_failure_is_delayed_witness :
  ∃ added,
    trace (handle_api_auth failed_login_request example_world).2 = [] ++ added
    ∧ last added = Some (Sleep 3)
    ∧ shared (handle_api_auth failed_login_request example_world).2
      = gevent_sleep 3 (shared example_world).
Proof.
  assert (Hrun : handle_api_auth failed_login_request example_world =
    (Ok [("success", PBool false); ("error", PNone)],
     (handle_api_auth failed_login_request example_world).2))
    by (vm_compute; reflexivity).
  destruct (auth_failure_is_delayed failed_login_request example_world
              (handle_api_auth failed_login_request example_world).2
              (PStr "normal") [("success", PBool false); ("error", PNone)]
              eq_refl (or_introl eq_refl) Hrun)
    as (added & Htrace & Hfail & _).
  exists added. split; [exact Htrace|]. by apply Hfail.
Defined.

Lemma auth_sudo_catches_only_SudoError_witness :
  handle_api_auth (request [("username", PStr "alice")] []) example_world
  = (Raise (KeyError "mode"), example_world)
  ∧ handle_api_auth (services := broken_services) failed_sudo_request
      example_world
    = (Raise (OSError 5),
       extend example_world (shared example_world)
         [CheckSudoPassword (PStr "alice") (PStr "guess")]).
Proof.
  split.
  - exact (proj1 (auth_sudo_catches_only_SudoError
                    (request [("username", PStr "alice")] []) example_world)
             eq_refl).
  - exact (proj2 (auth_sudo_catches_only_SudoError
                    (services := broken_services) failed_sudo_request
                    example_world)
             eq_refl (OSError 5) eq_refl eq_refl).
Defined.

Lemma sudo_failure_reports_reason_witness :
  handle_api_auth failed_sudo_request example_world =
  (Ok [("success", PBool false); ("error", PStr "Authorization failed")],
   extend example_world (gevent_sleep 3 (shared example_world))
     [CheckSudoPassword (PStr "alice") (PStr "guess"); Sleep 3])
  ∧ handle_api_auth empty_sudo_request example_world =
    (Ok [("success", PBool false); ("error", PStr "Password required")],
     extend example_world (gevent_sleep 3 (shared example_world))
       [CheckSudoPassword (PStr "alice") (PStr ""); Sleep 3]).
Proof.
  split.
  - apply (proj1 (sudo_failure_reports_reason failed_sudo_request
                    example_world eq_refl) (PBool false)); reflexivity.
  - apply (proj2 (sudo_failure_reports_reason empty_sudo_request
                    example_world eq_refl) (PStr "Password required")).
    reflexivity.
Defined.

Lemma normal_login_success_witness :
  handle_api_auth login_request example_world =
  (Ok [("success", PBool true); ("username", PStr "alice")],
   extend example_world (shared example_world)
     [CheckPassword (PStr "alice") (PStr "wonderland");
      PrepareSessionRedirect (PStr "alice") (PStr "alice")]).
Proof.
  exact (normal_login_success login_request example_world eq_refl eq_refl).
Defined.

End AuthMoreExamples.

Section SerialMoreFacts.
Import Api Itsdangerous.
Context {services : Services} {backend : SignerBackend}.

Lemma rsplit_Some (s a b : string) :
  rsplit s = Some (a, b) → s = a +:+ "." +:+ b ∧ rsplit b = None.
Proof.
  revert a. induction s as [|c s IH]; intros a; [discriminate|].
  cbn [rsplit]. destruct (rsplit s) as [[a' b']|] eqn:Hs.
  - intros [= <- <-]. destruct (IH a' eq_refl) as [-> Hb]. by split.
  - destruct (Ascii.eqb c sep) eqn:Hc; [|discriminate].
    apply Ascii.eqb_eq in Hc as ->. intros [= <- <-]. by split.
Qed.

(** [handle_api_check_pw_serial], in closed form. *)
Lemma handle_api_check_pw_serial_cases (http : http_context) (w : world) :
  handle_api_check_pw_serial http w =
  match body http !! "serial" with
  | None => (Raise (KeyError "serial"), w)
  | Some serial =>
      if truthy serial then
        match serial with
        | PStr s =>
            match loads (secret w) (py_int (clock (shared w))) 900 s with
            | Ok (user, email) => (Ok (Data user email), w)
            | Raise e =>
                (Raise (if is_time_signature_error e
                        then EndpointError e else e), w)
            end
        | _ => (Raise (OtherError "TypeError"), w)
        end
      else (Ok ReplyFalse, w)
  end.
Proof.
  unfold handle_api_check_pw_serial, getitem.
  destruct (body http !! "serial") as [serial|]; [|done].
  unfold bind at 1, ret at 1. destruct (truthy serial); [|done].
  unfold try_except, bind, get, ret, raise. simpl.
  destruct serial as [| |?|s]; try done.
  destruct (loads _ _ _ s) as [[user email]|e]; [done|].
  by destruct (is_time_signature_error e).
Qed.

(** X22: the check endpoint hands out data only for a serial of the form
    [payload.timestamp.signature] whose signature verifies under the
    configured secret, whose timestamp decodes and is between 0 and 900
    seconds old, and whose payload decodes to exactly the data returned. *)
Theorem check_pw_serial_accepts_only_valid_tokens (http : http_context)
    (w w' : world) (user email : pyval) :
  handle_api_check_pw_serial http w = (Ok (Data user email), w') →
  w' = w
  ∧ ∃ payload ts_bytes sig ts,
      body http !! "serial"
      = Some (PStr ((payload +:+ "." +:+ ts_bytes) +:+ "." +:+ sig))
      ∧ verify_signature (secret w) (payload +:+ "." +:+ ts_bytes) sig = true
      ∧ decode_timestamp ts_bytes = Some ts
      ∧ 0 ≤ py_int (clock (shared w)) - ts ≤ 900
      ∧ load_payload payload = Some (user, email).
Proof.
  rewrite handle_api_check_pw_serial_cases.
  destruct (body http !! "serial") as [serial|]; [|discriminate].
  destruct (truthy serial); [|discriminate].
  destruct serial as [| |?|s]; try discriminate.
  unfold loads, TimestampSigner_unsign, Signer_unsign.
  destruct (rsplit s) as [[signed sig]|] eqn:Hs; simpl.
  2: { discriminate. }
  destruct (verify_signature (secret w) signed sig) eqn:Hverify.
  2: { simpl. destruct (rsplit signed) as [[? ?]|]; simpl; discriminate. }
  simpl.
  destruct (rsplit signed) as [[payload ts_bytes]|] eqn:Hsigned;
    [|simpl; discriminate].
  destruct (decode_timestamp ts_bytes) as [ts|] eqn:Hts;
    [|simpl; discriminate].
  destruct (py_int (clock (shared w)) - ts >? 900) eqn:Hold;
    [simpl; discriminate|].
  destruct (py_int (clock (shared w)) - ts <? 0) eqn:Hfuture;
    [simpl; discriminate|].
  destruct (load_payload payload) as [[u e]|] eqn:Hload;
    [|simpl; discriminate].
  intros [= <- <- <-]. split; [done|].
  apply rsplit_Some in Hs as [-> _]. apply rsplit_Some in Hsigned as [-> _].
  exists payload, ts_bytes, sig, ts. repeat split; try done; lia.
Qed.

(** X23: the check endpoint never changes anything, whatever it is sent.
    A body without [serial] raises [KeyError]; a falsy [serial] (null,
    false, 0 or the empty string) is answered [False] without consulting
    the signer. *)
Theorem check_pw_serial_is_read_only (http : http_context) (w : world) :
  (handle_api_check_pw_serial http w).2 = w
  ∧ (body http !! "serial" = None →
     (handle_api_check_pw_serial http w).1 = Raise (KeyError "serial"))
  ∧ (∀ serial, body http !! "serial" = Some serial → truthy serial = false →
               (handle_api_check_pw_serial http w).1 = Ok ReplyFalse).
Proof.
  rewrite handle_api_check_pw_serial_cases. split; [|split].
  - destruct (body http !! "serial") as [serial|]; [|done].
    destruct (truthy serial); [|done].
    destruct serial as [| |?|s]; try done.
    by destruct (loads _ _ _ s) as [[? ?]|?].
  - by intros ->.
  - by intros serial -> ->.
Qed.

(** The exceptions the serializer can raise. *)
Lemma loads_raises (secret : string) (now max_age : Z) (s : string) (e : exn) :
  loads secret now max_age s = Raise e →
  e = BadSignature ∨ e = BadTimeSignature ∨ e = SignatureExpired
  ∨ e = BadPayload.
Proof.
  unfold loads, TimestampSigner_unsign, Signer_unsign.
  destruct (rsplit s) as [[signed sig]|]; simpl.
  2: { intros [= <-]. auto. }
  destruct (verify_signature secret signed sig); simpl.
  2: { destruct (rsplit signed) as [[? ?]|]; simpl; intros [= <-]; auto. }
  destruct (rsplit signed) as [[payload ts_bytes]|]; simpl.
  2: { intros [= <-]. auto. }
  destruct (decode_timestamp ts_bytes) as [ts|]; simpl.
  2: { intros [= <-]. auto. }
  destruct (now - ts >? max_age); simpl; [intros [= <-]; auto|].
  destruct (now - ts <? 0); simpl; [intros [= <-]; auto|].
  destruct (load_payload payload) as [[? ?]|]; [discriminate|].
  intros [= <-]. auto.
Qed.

(** X24: [EndpointError] is raised only for the two listed signature
    errors.  A non-empty serial without any ['.'] separator makes the
    signer raise a plain [BadSignature], and a token whose payload does
    not decode a [BadPayload]; both leave the handler as they are, not
    wrapped in [EndpointError]. *)
Theorem check_pw_serial_wraps_only_time_signature_errors
    (http : http_context) (w : world) :
  (∀ e w', handle_api_check_pw_serial http w = (Raise (EndpointError e), w') →
           e = SignatureExpired ∨ e = BadTimeSignature)
  ∧ (∀ s, body http !! "serial" = Some (PStr s) →
          s ≠ "" → rsplit s = None →
          handle_api_check_pw_serial http w = (Raise BadSignature, w))
  ∧ (∀ s, body http !! "serial" = Some (PStr s) →
          loads (secret w) (py_int (clock (shared w))) 900 s = Raise BadPayload →
          handle_api_check_pw_serial http w = (Raise BadPayload, w)).
Proof.
  rewrite handle_api_check_pw_serial_cases. split; [|split].
  - intros e w'.
    destruct (body http !! "serial") as [serial|]; [|discriminate].
    destruct (truthy serial); [|discriminate].
    destruct serial as [| |?|s]; try discriminate.
    destruct (loads _ _ _ s) as [[? ?]|x] eqn:Hloads; [discriminate|].
    apply loads_raises in Hloads as [-> | [-> | [-> | ->]]]; simpl;
      intros [= <- <-] || discriminate; auto.
  - intros s -> Hne Hs. cbn [truthy].
    destruct (String.eqb s "") eqn:Hempty.
    { by apply String.eqb_eq in Hempty. }
    unfold loads, TimestampSigner_unsign, Signer_unsign. by rewrite Hs.
  - intros s -> Hloads. rewrite Hloads. cbn [truthy].
    destruct (String.eqb s "") eqn:Hempty; [|done].
    apply String.eqb_eq in Hempty as ->. discriminate Hloads.
Qed.

End SerialMoreFacts.

Section ResetMoreFacts.
Import Api Itsdangerous.
Context {services : Services} {backend : SignerBackend}.

(** X25: the reset endpoint needs both the [mail] field and the [Origin]
    header: without either it raises [KeyError] before the account
    provider is asked, and nothing is sent.  It never touches the shared
    state, and when it sends a mail, the recipient is the address of the
    request, that address is known to the provider, and the link is the
    [Origin] header the client sent followed by
    [/view/reset_password/] and the token. *)
Theorem reset_mail_follows_the_request (http : http_context) (w : world) :
  (body http !! "mail" = None →
   handle_api_send_pw_reset http w = (Raise (KeyError "mail"), w))
  ∧ (∀ mail, body http !! "mail" = Some mail →
             environ http !! "HTTP_ORIGIN" = None →
             handle_api_send_pw_reset http w
             = (Raise (KeyError "HTTP_ORIGIN"), w))
  ∧ shared (handle_api_send_pw_reset http w).2 = shared w
  ∧ ∃ added,
      trace (handle_api_send_pw_reset http w).2 = trace w ++ added
      ∧ ∀ recipient link,
          SendPasswordReset recipient link ∈ added →
          body http !! "mail" = Some recipient
          ∧ truthy (check_mail recipient) = true
          ∧ ∃ origin,
              environ http !! "HTTP_ORIGIN" = Some origin
              ∧ link = py_str origin +:+ "/view/reset_password/" +:+
                       dumps (secret w) (py_int (clock (shared w)))
                         (check_mail recipient, recipient).
Proof.
  rewrite handle_api_send_pw_reset_eq.
  split; [by intros ->|]. split; [by intros mail -> ->|].
  destruct (body http !! "mail") as [mail|].
  2: { split; [done|]. exists []. rewrite app_nil_r. split; [done|].
       intros recipient link []%elem_of_nil. }
  destruct (environ http !! "HTTP_ORIGIN") as [origin|].
  2: { split; [done|]. exists []. rewrite app_nil_r. split; [done|].
       intros recipient link []%elem_of_nil. }
  split; [done|]. eexists. split; [reflexivity|].
  intros recipient link Hin.
  destruct (truthy (check_mail mail)) eqn:Hknown.
  - apply elem_of_cons in Hin as [Hin|Hin]; [discriminate|].
    apply list_elem_of_singleton in Hin. injection Hin as -> ->.
    split; [done|]. split; [done|]. by exists origin.
  - apply list_elem_of_singleton in Hin. discriminate.
Qed.

End ResetMoreFacts.

Section SessionTimeMoreFacts.
Import Api.
Context {services : Services}.

(** X26: the sign of the remaining session time tells whether the idle
    window has passed.  While [timestamp + session_max_time], as a
    double, is not before [now] the answer is not negative; when it is
    not after [now] the answer is not positive.  This holds whenever both
    are below [2^1022] in magnitude; for finite doubles beyond that the
    only other outcome is the [OverflowError] that [int()] raises on an
    infinite difference.  A session that is not in the registry counts
    from timestamp 0. *)
Theorem session_time_sign (w : world) :
  dev_autologin w = false →
  let e := gevent_sleep (1 # 100) (update_sessionlist (shared w)) in
  let timestamp := session_timestamp (sessions e) (session_key w) in
  let max_time := effective_session_max_time (session_max_time w) in
  let now := float_of_Q (clock e) in
  (∀ total deadline,
     py_add timestamp max_time = Ok total →
     to_float total = Ok deadline →
     finite deadline = true →
     finite now = true →
     ((SF2Q now <= SF2Q deadline)%Q →
      (∃ remaining,
         (handle_api_sessiontime w).1 = Ok remaining ∧ 0 ≤ remaining)
      ∨ (handle_api_sessiontime w).1 = Raise (OtherError "OverflowError"))
     ∧ ((SF2Q deadline <= SF2Q now)%Q →
        (∃ remaining,
           (handle_api_sessiontime w).1 = Ok remaining ∧ remaining ≤ 0)
        ∨ (handle_api_sessiontime w).1 = Raise (OtherError "OverflowError"))
     ∧ (moderate deadline = true → moderate now = true →
        ∃ remaining,
          (handle_api_sessiontime w).1 = Ok remaining
          ∧ ((SF2Q now <= SF2Q deadline)%Q → 0 ≤ remaining)
          ∧ ((SF2Q deadline <= SF2Q now)%Q → remaining ≤ 0)))
  ∧ (sessions e !! session_key w = None →
     (handle_api_sessiontime w).1 = remaining_time (PyInt 0) max_time now).
Proof.
  intros Hauto e timestamp max_time now.
  rewrite (handle_api_sessiontime_eq w Hauto). fold e timestamp max_time now.
  cbn [fst]. split.
  - intros total deadline Hadd Hto Hdeadline Hnow.
    rewrite (remaining_time_float _ _ _ _ now Hadd Hto).
    destruct (SFsub_sign deadline now Hdeadline Hnow) as [Hneg Hpos].
    split; [|split].
    + intros Hlive. by apply int_of_number_not_negative, Hpos.
    + intros Hpast. by apply int_of_number_not_positive, Hneg.
    + intros Hd Hn.
      rewrite (int_of_number_finite _ (SFsub_finite deadline now Hd Hn)).
      eexists. split; [reflexivity|].
      split; intros Hle; apply trunc_sign; auto.
  - intros Hnone. unfold timestamp, session_timestamp. by rewrite Hnone.
Qed.

End SessionTimeMoreFacts.

Section ApiMoreExamples.
Import Api Itsdangerous.

Lemma check_pw_serial_accepts_only_valid_tokens_witness :
  ∃ payload ts_bytes sig ts,
    body (check_request example_serial) !! "serial"
    = Some (PStr ((payload +:+ "." +:+ ts_bytes) +:+ "." +:+ sig))
    ∧ verify_signature "s3cr3t" (payload +:+ "." +:+ ts_bytes) sig = true
    ∧ decode_timestamp ts_bytes = Some ts
    ∧ 0 ≤ 1600 - ts ≤ 900.
Proof.
  assert (Hrun :
    handle_api_check_pw_serial (check_request example_serial)
      (at_time (16005 # 10) example_world)
    = (Ok (Data (PStr "alice") (PStr "alice@example.org")),
       at_time (16005 # 10) example_world))
    by (vm_compute; reflexivity).
  destruct (check_pw_serial_accepts_only_valid_tokens _ _ _ _ _ Hrun)
    as (_ & payload & ts_bytes & sig & ts & Hbody & Hverify & Hts & Hage & _).
  by exists payload, ts_bytes, sig, ts.
Defined.

Lemma check_pw_serial_is_read_only_witness :
  (handle_api_check_pw_serial (check_request "") example_world).2
  = example_world
  ∧ (handle_api_check_pw_serial (check_request "") example_world).1
    = Ok ReplyFalse.
Proof.
  destruct (check_pw_serial_is_read_only (check_request "") example_world)
    as (Hworld & _ & Hfalsy).
  split; [exact Hworld|]. by apply (Hfalsy (PStr "")).
Defined.

Lemma check_pw_serial_wraps_only_time_signature_errors_witness :
  handle_api_check_pw_serial (check_request "garbage") example_world
  = (Raise BadSignature, example_world).
Proof.
  destruct (check_pw_serial_wraps_only_time_signature_errors
              (check_request "garbage") example_world) as (_ & Hplain & _).
  by apply (Hplain "garbage").
Defined.

Lemma reset_mail_follows_the_request_witness :
  handle_api_send_pw_reset
    (HttpContext (list_to_map [("mail", PStr "alice@example.org")]) ∅)
    example_world
  = (Raise (KeyError "HTTP_ORIGIN"), example_world).
Proof.
  destruct (reset_mail_follows_the_request
              (HttpContext (list_to_map [("mail", PStr "alice@example.org")]) ∅)
              example_world) as (_ & Horigin & _).
  by apply (Horigin (PStr "alice@example.org")).
Defined.

Lemma session_time_sign_witness :
  (∃ remaining,
     (handle_api_sessiontime example_world).1 = Ok remaining
     ∧ 0 ≤ remaining)
  ∧ (handle_api_sessiontime (services := still_services)
       (World (Env 1000 ∅) false None "s3cr3t" "k1" [])).1
    = remaining_time (PyInt 0) (PyInt 3600) (float_of_Q 1000).
Proof.
  split.
  - destruct (session_time_sign example_world eq_refl) as [Hsign _].
    destruct (Hsign (PyInt 4600) (float_of_Q 4600)
                eq_refl eq_refl eq_refl eq_refl)
      as (_ & _ & Hmoderate).
    destruct (Hmoderate eq_refl eq_refl) as (remaining & Hrun & Hlive & _).
    exists remaining. split; [exact Hrun|].
    apply Hlive. vm_compute. discriminate.
  - destruct (session_time_sign (services := still_services)
                (World (Env 1000 ∅) false None "s3cr3t" "k1" []) eq_refl)
      as [_ Hnone].
    exact (Hnone eq_refl).
Defined.

End ApiMoreExamples.
